(** * AuthGate browser SDK: a shallow embedding of [src/index.ts]

    The SDK is five small functions over three ambient browser capabilities:
    the cookie jar ([document.cookie]), the network ([fetch]) and the
    navigator ([window.location.href]).  The embedding keeps them as an
    explicit world that every operation threads, and models exceptions
    (rejected promises) as an abrupt completion.

    JavaScript strings are sequences of UTF-16 code units; they are modelled
    as [list Z].  The platform functions the source calls
    ([String.prototype.split], [startsWith], [Array.prototype.find],
    [decodeURIComponent], [encodeURIComponent]) follow ECMA-262. *)

From Stdlib Require Import ZArith Lia Bool String Ascii.
From stdpp Require Import base option list strings gmap.

Local Open Scope Z_scope.

(** ** JavaScript strings *)

Abbreviation jsstring := (list Z).

(** A source literal, as the list of its code units. *)
Definition lit (s : string) : jsstring :=
  (fun a => Z.of_N (N_of_ascii a)) <$> list_ascii_of_string s.

Definition code_unit (u : Z) : Prop := 0 <= u < 65536.

(** [s.startsWith(p)] *)
Fixpoint startsWith (s p : jsstring) {struct p} : bool :=
  match p with
  | [] => true
  | a :: p' =>
      match s with
      | [] => false
      | b :: s' => (a =? b) && startsWith s' p'
      end
  end.

(** [s.split(sep)] for a non-empty separator: ECMA-262 cuts at the leftmost
    occurrence of [sep], then resumes the search right after it.  [skip]
    counts the code units of an occurrence that are still to be passed over,
    [cur] holds the piece being collected (reversed). *)
Fixpoint split_go (sep : jsstring) (skip : nat) (cur s : jsstring)
  : list jsstring :=
  match s with
  | [] => [reverse cur]
  | c :: rest =>
      match skip with
      | S k => split_go sep k cur rest
      | O =>
          if startsWith s sep
          then reverse cur :: split_go sep (Nat.pred (length sep)) [] rest
          else split_go sep O (c :: cur) rest
      end
  end.

Definition split (s sep : jsstring) : list jsstring := split_go sep O [] s.

(** [pieces.join(sep)], the inverse of [split]. *)
Fixpoint join (sep : jsstring) (l : list jsstring) : jsstring :=
  match l with
  | [] => []
  | [x] => x
  | x :: l' => x ++ sep ++ join sep l'
  end.

(** ** URI component coding (ECMA-262, 19.2.6) *)

Definition in_range (lo hi c : Z) : bool := (lo <=? c) && (c <=? hi).

(** The set that [encodeURIComponent] leaves alone: ASCII letters and digits
    and [- _ . ! ~ * ' ( )]. *)
Definition unescaped (c : Z) : bool :=
  in_range 65 90 c || in_range 97 122 c || in_range 48 57 c
  || existsb (Z.eqb c) [45; 95; 46; 33; 126; 42; 39; 40; 41].

Definition is_lead (c : Z) : bool := in_range 55296 56319 c.
Definition is_trail (c : Z) : bool := in_range 56320 57343 c.

(** UTF-8 transformation of a code point. *)
Definition utf8_encode (v : Z) : list Z :=
  if v <=? 127 then [v]
  else if v <=? 2047 then [192 + v / 64; 128 + v mod 64]
  else if v <=? 65535 then
    [224 + v / 4096; 128 + (v / 64) mod 64; 128 + v mod 64]
  else
    [240 + v / 262144; 128 + (v / 4096) mod 64;
     128 + (v / 64) mod 64; 128 + v mod 64].

Definition hexdigit (d : Z) : Z := if d <? 10 then 48 + d else 55 + d.

(** One octet as [%XX], upper-case hexadecimal. *)
Definition pct (b : Z) : jsstring := [37; hexdigit (b / 16); hexdigit (b mod 16)].

Definition pct_all (bs : list Z) : jsstring := mjoin (pct <$> bs).

Definition UTF16SurrogatePairToCodePoint (lead trail : Z) : Z :=
  (lead - 55296) * 1024 + (trail - 56320) + 65536.

(** [Encode(string, "")]; [None] is the [URIError] thrown for an unpaired
    surrogate. *)
Fixpoint Encode (s : jsstring) : option jsstring :=
  match s with
  | [] => Some []
  | c :: rest =>
      if unescaped c then cons c <$> Encode rest
      else if is_trail c then None
      else if is_lead c then
        match rest with
        | d :: rest' =>
            if is_trail d
            then app (pct_all (utf8_encode (UTF16SurrogatePairToCodePoint c d)))
                   <$> Encode rest'
            else None
        | [] => None
        end
      else app (pct_all (utf8_encode c)) <$> Encode rest
  end.

Definition hexval (c : Z) : option Z :=
  if in_range 48 57 c then Some (c - 48)
  else if in_range 65 70 c then Some (c - 55)
  else if in_range 97 102 c then Some (c - 87)
  else None.

Definition ParseHexOctet (h l : Z) : option Z :=
  match hexval h, hexval l with
  | Some a, Some b => Some (16 * a + b)
  | _, _ => None
  end.

(** Number of leading 1 bits of an octet (5 stands for "more than 4"). *)
Definition leading_ones (b : Z) : nat :=
  if b <? 128 then 0%nat
  else if b <? 192 then 1%nat
  else if b <? 224 then 2%nat
  else if b <? 240 then 3%nat
  else if b <? 248 then 4%nat
  else 5%nat.

Definition continuation (b : Z) : bool := in_range 128 191 b.

(** The code point of a well-formed multi-octet UTF-8 sequence: continuation
    octets, shortest form, no surrogate, at most U+10FFFF (Unicode, table
    3-7). *)
Definition utf8_decode (o : list Z) : option Z :=
  match o with
  | [b1; b2] =>
      let v := (b1 - 192) * 64 + (b2 - 128) in
      if continuation b2 && (128 <=? v) then Some v else None
  | [b1; b2; b3] =>
      let v := (b1 - 224) * 4096 + (b2 - 128) * 64 + (b3 - 128) in
      if continuation b2 && continuation b3 && (2048 <=? v)
         && negb (in_range 55296 57343 v)
      then Some v else None
  | [b1; b2; b3; b4] =>
      let v := (b1 - 240) * 262144 + (b2 - 128) * 4096
               + (b3 - 128) * 64 + (b4 - 128) in
      if continuation b2 && continuation b3 && continuation b4
         && (65536 <=? v) && (v <=? 1114111)
      then Some v else None
  | _ => None
  end.

Definition UTF16EncodeCodePoint (v : Z) : jsstring :=
  if v <=? 65535 then [v]
  else [(v - 65536) / 1024 + 55296; (v - 65536) mod 1024 + 56320].

(** The text a multi-octet sequence decodes to: the UTF-16 form of its code
    point. *)
Definition decode_octets (o : list Z) : option jsstring :=
  UTF16EncodeCodePoint <$> utf8_decode o.

(** [Decode(string, "")]; [None] is the [URIError] thrown for a [%] that is
    not followed by two hexadecimal digits or for octets that are not
    well-formed UTF-8.  The inner loop over the [n - 1] continuation escapes
    is written out for [n = 2, 3, 4]. *)
Fixpoint Decode (s : jsstring) : option jsstring :=
  match s with
  | [] => Some []
  | c :: rest =>
    if c =? 37 then
      match rest with
      | h1 :: l1 :: r1 =>
        b1 ← ParseHexOctet h1 l1;
        match leading_ones b1 with
        | 0%nat => cons b1 <$> Decode r1
        | 2%nat =>
          match r1 with
          | p2 :: h2 :: l2 :: r2 =>
            if p2 =? 37 then
              b2 ← ParseHexOctet h2 l2;
              u ← decode_octets [b1; b2];
              app u <$> Decode r2
            else None
          | _ => None
          end
        | 3%nat =>
          match r1 with
          | p2 :: h2 :: l2 :: p3 :: h3 :: l3 :: r3 =>
            if p2 =? 37 then
              b2 ← ParseHexOctet h2 l2;
              if p3 =? 37 then
                b3 ← ParseHexOctet h3 l3;
                u ← decode_octets [b1; b2; b3];
                app u <$> Decode r3
              else None
            else None
          | _ => None
          end
        | 4%nat =>
          match r1 with
          | p2 :: h2 :: l2 :: p3 :: h3 :: l3 :: p4 :: h4 :: l4 :: r4 =>
            if p2 =? 37 then
              b2 ← ParseHexOctet h2 l2;
              if p3 =? 37 then
                b3 ← ParseHexOctet h3 l3;
                if p4 =? 37 then
                  b4 ← ParseHexOctet h4 l4;
                  u ← decode_octets [b1; b2; b3; b4];
                  app u <$> Decode r4
                else None
              else None
            else None
          | _ => None
          end
        | _ => None
        end
      | _ => None
      end
    else cons c <$> Decode rest
  end.

(** A code point that has a UTF-8 form: a Unicode scalar value. *)
Definition scalar (v : Z) : Prop :=
  0 <= v <= 1114111 /\ ~ (55296 <= v <= 57343).

(** The code units [Encode] writes: unescaped characters and [%]. *)
Definition uri_safe (c : Z) : Prop := unescaped c = true \/ c = 37.

(** ** Values, requests and responses *)

(** JavaScript values as far as the SDK meets them: parsed JSON bodies and
    the members of a [RequestInit] dictionary.  The SDK never computes with
    a number; [JNum] keeps integers only. *)
#[warnings="-register-all"]
Inductive JsVal : Type :=
  | JNull
  | JBool (b : bool)
  | JNum (n : Z)
  | JStr (s : jsstring)
  | JArr (items : list JsVal)
  | JObj (members : list (jsstring * JsVal)).

(** [obj[key]] on a parsed value. *)
Definition member (key : jsstring) (v : JsVal) : option JsVal :=
  match v with
  | JObj members => snd <$> List.find (fun m => bool_decide (m.1 = key)) members
  | _ => None
  end.

Definition is_string (v : option JsVal) : bool :=
  match v with
  | Some (JStr _) => true
  | _ => false
  end.

(** The shape the type [CurrentUser] describes: an object whose [id],
    [email] and [username] are strings. *)
Definition CurrentUser (v : JsVal) : bool :=
  is_string (member (lit "id") v) && is_string (member (lit "email") v)
  && is_string (member (lit "username") v).

(** What a [throw] (or a rejected promise) carries. *)
Inductive Exn : Type :=
  | URIError
  | TypeError (msg : string)
  | SyntaxError (msg : string)
  | DOMException (name : string).

Inductive Completion (A : Type) : Type :=
  | Normal (a : A)
  | Throw (e : Exn).
Arguments Normal {A} a.
Arguments Throw {A} e.

(** A [Response]: the status and what [res.json()] settles to. *)
Record Response : Type := mkResponse {
  status : Z;
  json : Completion JsVal
}.

(** [res.ok]: the Fetch standard's getter, true for statuses 200 to 299. *)
Definition ok (res : Response) : bool := in_range 200 299 (status res).

(** The first argument of [fetch]: [RequestInfo | URL]. *)
Inductive RequestInfo : Type :=
  | InputString (u : jsstring)
  | InputURL (u : jsstring)
  | InputRequest (id : nat).

(** [RequestInit], an object used as a dictionary of options. *)
Abbreviation RequestInit := (gmap string JsVal).

Record Request : Type := mkRequest {
  req_input : RequestInfo;
  req_init : RequestInit
}.

(** ** The ambient world

    [net] is everything on the other side of [fetch]: given the calls made so
    far, the cookie jar and the request, it settles the call (a response or a
    rejection) and leaves the cookie jar as the auth service's [Set-Cookie]
    headers make it.  [calls] and [navs] record the network calls and the
    assignments to [window.location.href] in order, and [href] holds the
    string last assigned.  [url_parses] is the
    page's URL parser, relative to its base URL: the [href] setter throws a
    [SyntaxError] [DOMException] for a string it rejects. *)
Definition Server : Type :=
  list Request -> jsstring -> Request -> Completion Response * jsstring.

Record World : Type := mkWorld {
  cookie : jsstring;
  href : jsstring;
  calls : list Request;
  navs : list jsstring;
  net : Server;
  url_parses : jsstring -> bool
}.

(** Computations over the world that return or throw. *)
Definition M (A : Type) : Type := World -> Completion A * World.

#[global] Instance M_ret : MRet M := fun A a w => (Normal a, w).

#[global] Instance M_bind : MBind M := fun A B f m w =>
  match m w with
  | (Normal a, w') => f a w'
  | (Throw e, w') => (Throw e, w')
  end.

#[global] Instance M_fmap : FMap M := fun A B f m w =>
  match m w with
  | (Normal a, w') => (Normal (f a), w')
  | (Throw e, w') => (Throw e, w')
  end.

Definition throw {A} (e : Exn) : M A := fun w => (Throw e, w).

(** [try { m } catch { h }] *)
Definition try_catch {A} (m : M A) (h : M A) : M A := fun w =>
  match m w with
  | (Normal a, w') => (Normal a, w')
  | (Throw _, w') => h w'
  end.

(** A platform function that throws [URIError] where the model has [None]. *)
Definition uri {A} (o : option A) : M A :=
  match o with
  | Some a => mret a
  | None => throw URIError
  end.

Definition decodeURIComponent (s : jsstring) : M jsstring := uri (Decode s).
Definition encodeURIComponent (s : jsstring) : M jsstring := uri (Encode s).

(** [document.cookie] *)
Definition document_cookie : M jsstring := fun w => (Normal (cookie w), w).

(** [await fetch(input, init)] *)
Definition fetch (input : RequestInfo) (init : RequestInit) : M Response :=
  fun w =>
    let rq := mkRequest input init in
    let '(out, jar) := net w (calls w) (cookie w) rq in
    (out, mkWorld jar (href w) (calls w ++ [rq]) (navs w) (net w) (url_parses w)).

(** [window.location.href = target]: the setter parses [target] first and
    throws when that fails; otherwise it navigates. *)
Definition set_location_href (target : jsstring) : M unit := fun w =>
  if url_parses w target
  then (Normal (),
        mkWorld (cookie w) target (calls w) (navs w ++ [target]) (net w)
          (url_parses w))
  else (Throw (DOMException "SyntaxError"), w).

(** [await res.json()] *)
Definition res_json (res : Response) : M JsVal := fun w => (json res, w).

(** Truthiness of a [string | null | undefined]: only a non-empty string. *)
Definition truthy (v : option jsstring) : bool :=
  match v with
  | Some (_ :: _) => true
  | _ => false
  end.

(** [String(v)] for an array element that may be missing. *)
Definition ToString (v : option jsstring) : jsstring :=
  default (lit "undefined") v.

(** ** The SDK *)

(** [getCookie(name)] *)
Definition getCookie (name : jsstring) : M (option jsstring) :=
  ck ← document_cookie;
  let match_ := List.find (fun c => startsWith c (name ++ lit "="))
                  (split ck (lit "; ")) in
  if truthy match_
  then Some <$> decodeURIComponent
                  (ToString (split (default [] match_) (lit "=") !! 1%nat))
  else mret None.

(** [getCSRFToken()] *)
Definition getCSRFToken : M (option jsstring) := getCookie (lit "authgate_csrf").

Inductive Reason : Type := missing_csrf | request_failed | unauthorized.

(** [LogoutResult]: [{ ok: true }] or [{ ok: false, reason }]. *)
Inductive LogoutResult : Type :=
  | LogoutOk
  | LogoutFailed (reason : Reason).

Record LogoutOpts : Type := mkLogoutOpts { redirectTo : option jsstring }.

(** The options of the two CSRF-protected POST requests. *)
Definition csrf_post (csrf : jsstring) : RequestInit :=
  {[ "method"%string := JStr (lit "POST");
     "headers"%string := JObj [(lit "X-CSRF-Token", JStr csrf)];
     "credentials"%string := JStr (lit "include") ]}.

(** The outcome of a [try] block whose [catch] returns from the function. *)
Inductive Flow (A R : Type) : Type :=
  | Continue (a : A)
  | Return (r : R).
Arguments Continue {A R} a.
Arguments Return {A R} r.

(** [logout(opts)] *)
Definition logout (opts : option LogoutOpts) : M LogoutResult :=
  csrf ← getCSRFToken;
  if negb (truthy csrf) then mret (LogoutFailed missing_csrf)
  else
    r ← try_catch
          (Continue <$> fetch (InputString (lit "/auth/logout"))
                          (csrf_post (default [] csrf)))
          (mret (Return (LogoutFailed request_failed)));
    match r with
    | Return out => mret out
    | Continue res =>
        if negb (ok res) then
          mret (LogoutFailed
                  (if (status res =? 401) || (status res =? 403)
                   then unauthorized else request_failed))
        else
          _ ← (if truthy (opts ≫= redirectTo)
               then set_location_href (default [] (opts ≫= redirectTo))
               else mret ());
          mret LogoutOk
    end.

(** [withCredentials(init)]: [{ ...init, credentials: "include" }] *)
Definition withCredentials (init : RequestInit) : RequestInit :=
  <["credentials"%string := JStr (lit "include")]> init.

(** [refreshSession(audience = "app")] *)
Definition refreshSession (audience : option jsstring) : M bool :=
  let audience := default (lit "app") audience in
  csrf ← getCSRFToken;
  if negb (truthy csrf) then mret false
  else
    r ← try_catch
          (enc ← encodeURIComponent audience;
           Continue <$> fetch
             (InputString (lit "/auth/refresh?audience=" ++ enc))
             (csrf_post (default [] csrf)))
          (mret (Return false));
    match r with
    | Return out => mret out
    | Continue res => mret (ok res)
    end.

Record AuthOpts : Type := mkAuthOpts { audience : option jsstring }.

(** [authFetch(input, init = {}, opts)] *)
Definition authFetch (input : RequestInfo) (init : option RequestInit)
    (opts : option AuthOpts) : M Response :=
  let init := default ∅ init in
  let audience := default (lit "app") (opts ≫= audience) in
  res ← fetch input (withCredentials init);
  if negb (status res =? 401) then mret res
  else
    refreshed ← refreshSession (Some audience);
    if negb refreshed then mret res
    else fetch input (withCredentials init).

(** [getCurrentUser(opts)]; [JNull] is the [null] of the source. *)
Definition getCurrentUser (opts : option AuthOpts) : M JsVal :=
  r ← try_catch
        (Continue <$> authFetch (InputString (lit "/auth/user"))
                        (Some {[ "method"%string := JStr (lit "GET") ]})
                        (Some (mkAuthOpts
                                 (Some (default (lit "app") (opts ≫= audience))))))
        (mret (Return JNull));
  match r with
  | Return out => mret out
  | Continue res =>
      if negb (ok res) then mret JNull
      else try_catch (res_json res) (mret JNull)
  end.

(** ** Scripted servers, as the test-suite mocks [fetch] *)

(** The [n]-th call settles as the [n]-th entry; the jar is left alone. *)
Definition scripted (l : list (Completion Response)) : Server :=
  fun hist jar _ =>
    (default (Throw (TypeError "no more replies")) (l !! length hist), jar).

Definition resp (st : Z) : Response := mkResponse st (Throw (SyntaxError "empty body")).

(** The URL parser of the example pages, as far as the examples go: a
    special scheme with nothing after [//] has no host and does not parse;
    the relative references used here do. *)
Definition sample_url_parser (u : jsstring) : bool :=
  negb (bool_decide (u ∈ [lit "http://"; lit "https://"])).

Definition browser (jar : jsstring) (srv : Server) : World :=
  mkWorld jar [] [] [] srv sample_url_parser.

(** The calls an operation added to the log when it took [w] to [w']. *)
Definition issued (w w' : World) : list Request :=
  drop (length (calls w)) (calls w').

(** The entry [getCookie] selects in a cookie header. *)
Definition cookie_entry (name jar : jsstring) : option jsstring :=
  List.find (fun c => startsWith c (name ++ lit "=")) (split jar (lit "; ")).

(** The caller's request as [authFetch] sends it. *)
Definition forced (input : RequestInfo) (init : option RequestInit) : Request :=
  mkRequest input (withCredentials (default ∅ init)).

(** The refresh request for an encoded audience and a token. *)
Definition refresh_request (enc csrf : jsstring) : Request :=
  mkRequest (InputString (lit "/auth/refresh?audience=" ++ enc)) (csrf_post csrf).

Definition logout_request (csrf : jsstring) : Request :=
  mkRequest (InputString (lit "/auth/logout")) (csrf_post csrf).

(** The world after a call [rq] that left the jar as [jar]. *)
Definition after_call (w : World) (rq : Request) (jar : jsstring) : World :=
  mkWorld jar (href w) (calls w ++ [rq]) (navs w) (net w) (url_parses w).

(** The world after a navigation to [target]. *)
Definition navigated (w : World) (target : jsstring) : World :=
  mkWorld (cookie w) target (calls w) (navs w ++ [target]) (net w) (url_parses w).

(** ** Worlds used as examples *)

Definition api_data : RequestInfo := InputString (lit "/api/data").

(** No cookie at all; the server answers 401. *)
Definition world_no_cookie : World :=
  browser [] (scripted [Normal (resp 401)]).

(** A readable CSRF cookie; 401, then a successful refresh, then 200. *)
Definition world_retry : World :=
  browser (lit "authgate_csrf=abc")
    (scripted [Normal (resp 401); Normal (resp 200); Normal (resp 200)]).

(** A readable CSRF cookie; the first call succeeds. *)
Definition world_ok : World :=
  browser (lit "authgate_csrf=abc") (scripted [Normal (resp 200)]).

(** A CSRF cookie whose value is not valid percent-encoding. *)
Definition malformed_jar : jsstring := lit "authgate_csrf=%".

(** A CSRF cookie whose value is padded base64. *)
Definition padded_jar : jsstring := lit "authgate_csrf=dG9rZW4=".

(** The identity endpoint answers 200 with a body that parses to [v]. *)
Definition world_user (v : JsVal) : World :=
  browser [] (scripted [Normal (mkResponse 200 (Normal v))]).

(** The call [getCurrentUser] makes. *)
Definition user_lookup (opts : option AuthOpts) : M Response :=
  authFetch (InputString (lit "/auth/user"))
    (Some {[ "method"%string := JStr (lit "GET") ]})
    (Some (mkAuthOpts (Some (default (lit "app") (opts ≫= audience))))).

(** A header with two cookies named [sid]; the first holds an escaped
    space. *)
Definition two_sids : jsstring := lit "theme=dark; sid=abc%20def; sid=zzz".

(** A header whose [sid] value holds a [=] followed by a stray [%]. *)
Definition cut_sid : jsstring := lit "sid=abc=%; theme=dark".


(** A header whose CSRF cookie was written with [encodeURIComponent]. *)
Definition encoded_csrf_jar : jsstring :=
  lit "theme=dark; authgate_csrf=a%20b%3D%3B%25; lang=en".

(** An encoded CSRF cookie and a logout endpoint that answers 200. *)
Definition world_encoded : World :=
  browser encoded_csrf_jar (scripted [Normal (resp 200)]).

(** A readable CSRF cookie and a logout endpoint that answers 403. *)
Definition world_forbidden : World :=
  browser (lit "authgate_csrf=abc") (scripted [Normal (resp 403)]).

(** An audience that holds a lone surrogate. *)
Definition lone_surrogate : jsstring := [97; 55357].

(** An audience that holds the separators of a query string. *)
Definition noisy_audience : jsstring := lit "app&admin=1#x".

(** The first call is rejected by the transport. *)
Definition world_offline : World :=
  browser (lit "authgate_csrf=abc") (scripted [Throw (TypeError "Failed to fetch")]).

(** A user as the identity endpoint describes one. *)
Definition sample_user : JsVal :=
  JObj [(lit "id", JStr (lit "u1")); (lit "email", JStr (lit "a@b.c"));
        (lit "username", JStr (lit "ann"))].

(** The access token has expired: 401, a successful refresh, then the
    user. *)
Definition world_expired : World :=
  browser (lit "authgate_csrf=abc")
    (scripted [Normal (resp 401); Normal (resp 200);
               Normal (mkResponse 200 (Normal sample_user))]).

(** The session is gone: 401, a successful refresh, then 401 again. *)
Definition world_still_401 : World :=
  browser (lit "authgate_csrf=abc")
    (scripted [Normal (resp 401); Normal (resp 200); Normal (resp 401)]).

(** A readable CSRF cookie; 401, then the refresh call is rejected by the
    transport. *)
Definition world_refresh_offline : World :=
  browser (lit "authgate_csrf=abc")
    (scripted [Normal (resp 401); Throw (TypeError "Failed to fetch")]).

(** A malformed CSRF cookie; the identity endpoint answers 500. *)
Definition world_server_error : World :=
  browser malformed_jar (scripted [Normal (resp 500)]).

(** * Properties *)

#[local] Arguments lit : simpl never.
#[local] Arguments fetch : simpl never.
#[local] Arguments csrf_post : simpl never.
#[local] Arguments withCredentials : simpl never.

Ltac run :=
  unfold mbind, M_bind, mret, M_ret, fmap, M_fmap, try_catch, throw, uri.

(** ** The platform functions on sample inputs *)

Example split_cookie_header :
  split (lit "theme=dark; authgate_csrf=abc; lang=en") (lit "; ")
  = [lit "theme=dark"; lit "authgate_csrf=abc"; lit "lang=en"].
Proof. reflexivity. Qed.

Example split_empty : split [] (lit "; ") = [[]].
Proof. reflexivity. Qed.

Example split_leftmost : split (lit ";; ; ;") (lit "; ") = [lit ";"; []; lit ";"].
Proof. reflexivity. Qed.

Example split_equals : split (lit "k=a=b=") (lit "=") = [lit "k"; lit "a"; lit "b"; []].
Proof. reflexivity. Qed.

Example Encode_reserved : Encode (lit "a b=c;%/") = Some (lit "a%20b%3Dc%3B%25%2F").
Proof. reflexivity. Qed.

(** U+00E9, U+20AC and the surrogate pair of U+1F600. *)
Example Encode_utf8 :
  Encode [233; 8364; 55357; 56832] = Some (lit "%C3%A9%E2%82%AC%F0%9F%98%80").
Proof. reflexivity. Qed.

Example Encode_lone_surrogate : Encode [55357] = None.
Proof. reflexivity. Qed.

Example Decode_lower_case_hex : Decode (lit "%c3%a9%3d") = Some [233; 61].
Proof. reflexivity. Qed.

Example Decode_truncated_escape : Decode (lit "ab%4") = None.
Proof. reflexivity. Qed.

Example Decode_not_hex : Decode (lit "%zz") = None.
Proof. reflexivity. Qed.

Example Decode_lone_continuation : Decode (lit "%80") = None.
Proof. reflexivity. Qed.

Example Decode_overlong : Decode (lit "%C0%AF") = None.
Proof. reflexivity. Qed.

Example Decode_encoded_surrogate : Decode (lit "%ED%A0%80") = None.
Proof. reflexivity. Qed.

(** ** The repository's tests, replayed on the model *)

Example test_getCSRFToken_present srv :
  (getCSRFToken (browser (lit "authgate_csrf=token123") srv)).1
  = Normal (Some (lit "token123")).
Proof. reflexivity. Qed.

Example test_getCSRFToken_missing srv :
  (getCSRFToken (browser [] srv)).1 = Normal None.
Proof. reflexivity. Qed.

Example test_logout_missing_csrf :
  logout None (browser [] (scripted [Normal (resp 200)]))
  = (Normal (LogoutFailed missing_csrf), browser [] (scripted [Normal (resp 200)])).
Proof. reflexivity. Qed.

Example test_logout_calls_endpoint :
  let w' := (logout None world_ok).2 in
  (logout None world_ok).1 = Normal LogoutOk
  /\ calls w' = [mkRequest (InputString (lit "/auth/logout"))
                   {[ "method"%string := JStr (lit "POST");
                      "headers"%string := JObj [(lit "X-CSRF-Token", JStr (lit "abc"))];
                      "credentials"%string := JStr (lit "include") ]}].
Proof. vm_compute. split; reflexivity. Qed.

Example test_logout_redirects :
  let r := logout (Some (mkLogoutOpts (Some (lit "/after")))) world_ok in
  r.1 = Normal LogoutOk /\ href r.2 = lit "/after".
Proof. vm_compute. split; reflexivity. Qed.

Example test_logout_unauthorized :
  (logout None (browser (lit "authgate_csrf=abc") (scripted [Normal (resp 401)]))).1
  = Normal (LogoutFailed unauthorized).
Proof. vm_compute. reflexivity. Qed.

Example test_refreshSession_missing_csrf :
  let r := refreshSession (Some (lit "app")) (browser [] (scripted [])) in
  r.1 = Normal false /\ calls r.2 = [].
Proof. vm_compute. split; reflexivity. Qed.

Example test_refreshSession_admin :
  let r := refreshSession (Some (lit "admin")) world_ok in
  r.1 = Normal true
  /\ calls r.2 = [mkRequest (InputString (lit "/auth/refresh?audience=admin"))
                    (csrf_post (lit "abc"))].
Proof. vm_compute. split; reflexivity. Qed.

Example test_refreshSession_failed :
  (refreshSession (Some (lit "app"))
     (browser (lit "authgate_csrf=abc") (scripted [Normal (resp 401)]))).1
  = Normal false.
Proof. vm_compute. reflexivity. Qed.

Example test_authFetch_success :
  let r := authFetch api_data None None (browser [] (scripted [Normal (resp 200)])) in
  r.1 = Normal (resp 200) /\ length (calls r.2) = 1%nat.
Proof. vm_compute. split; reflexivity. Qed.

Example test_authFetch_refresh_fails :
  let r := authFetch api_data None None
             (browser (lit "authgate_csrf=abc")
                (scripted [Normal (resp 401); Normal (resp 401)])) in
  r.1 = Normal (resp 401)
  /\ length (calls r.2) = 2%nat
  /\ req_input <$> calls r.2 !! 1%nat
     = Some (InputString (lit "/auth/refresh?audience=app")).
Proof. vm_compute. repeat split; reflexivity. Qed.

Example test_authFetch_retries_once :
  let r := authFetch api_data None None world_retry in
  r.1 = Normal (resp 200) /\ length (calls r.2) = 3%nat.
Proof. vm_compute. split; reflexivity. Qed.

Example test_authFetch_admin_audience :
  let r := authFetch (InputString (lit "/admin/api/users")) (Some ∅)
             (Some (mkAuthOpts (Some (lit "admin")))) world_retry in
  r.1 = Normal (resp 200)
  /\ req_input <$> calls r.2 !! 1%nat
     = Some (InputString (lit "/auth/refresh?audience=admin")).
Proof. vm_compute. split; reflexivity. Qed.

(** ** The cookie reader *)

Lemma getCookie_run name w :
  getCookie name w =
    (match cookie_entry name (cookie w) with
     | Some (c :: m) =>
         match Decode (ToString (split (c :: m) (lit "=") !! 1%nat)) with
         | Some v => Normal (Some v)
         | None => Throw URIError
         end
     | _ => Normal None
     end, w).
Proof.
  unfold getCookie, cookie_entry, decodeURIComponent, document_cookie. run.
  destruct (List.find _ _) as [[|c m]|]; simpl; try reflexivity.
  destruct (Decode _); reflexivity.
Qed.

Lemma getCookie_frame name w : (getCookie name w).2 = w.
Proof. rewrite getCookie_run. reflexivity. Qed.

Lemma getCSRFToken_inv w c w' : getCSRFToken w = (c, w') -> w' = w.
Proof. intros H. rewrite <- (getCookie_frame (lit "authgate_csrf") w). unfold getCSRFToken in H. rewrite H. reflexivity. Qed.

Lemma getCookie_throws_only_URIError name w e w' :
  getCookie name w = (Throw e, w') -> e = URIError.
Proof.
  rewrite getCookie_run. intros H. injection H as H _.
  destruct (cookie_entry _ _) as [[|c m]|]; try discriminate.
  destruct (Decode _); congruence.
Qed.

(** ** [refreshSession] and [logout], step by step *)

Lemma fetch_run input init w :
  fetch input init w =
    let rq := mkRequest input init in
    ((net w (calls w) (cookie w) rq).1,
     after_call w rq (net w (calls w) (cookie w) rq).2).
Proof. unfold fetch, after_call. simpl. destruct (net w _ _ _). reflexivity. Qed.

Lemma refreshSession_run a w :
  refreshSession a w =
    match getCSRFToken w with
    | (Throw e, _) => (Throw e, w)
    | (Normal csrf, _) =>
        if truthy csrf then
          match Encode (default (lit "app") a) with
          | None => (Normal false, w)
          | Some enc =>
              let rq := refresh_request enc (default [] csrf) in
              let r := net w (calls w) (cookie w) rq in
              (Normal (match r.1 with Normal res => ok res | Throw _ => false end),
               after_call w rq r.2)
          end
        else (Normal false, w)
    end.
Proof.
  unfold refreshSession. run.
  destruct (getCSRFToken w) as [[csrf|e] w1] eqn:Hc;
    pose proof (getCSRFToken_inv _ _ _ Hc) as ->; [|reflexivity].
  destruct (truthy csrf); simpl; [|reflexivity].
  unfold encodeURIComponent. run.
  destruct (Encode _) as [enc|]; [|reflexivity].
  run. cbv beta iota. rewrite fetch_run. simpl. unfold refresh_request.
  destruct (net w _ _ _) as [[res|e] jar]; reflexivity.
Qed.

Lemma logout_run opts w :
  logout opts w =
    match getCSRFToken w with
    | (Throw e, _) => (Throw e, w)
    | (Normal csrf, _) =>
        if truthy csrf then
          let rq := logout_request (default [] csrf) in
          let r := net w (calls w) (cookie w) rq in
          match r.1 with
          | Throw _ => (Normal (LogoutFailed request_failed), after_call w rq r.2)
          | Normal res =>
              if ok res then
                if truthy (opts ≫= redirectTo)
                then
                  if url_parses w (default [] (opts ≫= redirectTo))
                  then (Normal LogoutOk,
                        navigated (after_call w rq r.2)
                          (default [] (opts ≫= redirectTo)))
                  else (Throw (DOMException "SyntaxError"), after_call w rq r.2)
                else (Normal LogoutOk, after_call w rq r.2)
              else
                (Normal (LogoutFailed
                           (if (status res =? 401) || (status res =? 403)
                            then unauthorized else request_failed)),
                 after_call w rq r.2)
          end
        else (Normal (LogoutFailed missing_csrf), w)
    end.
Proof.
  unfold logout. run.
  destruct (getCSRFToken w) as [[csrf|e] w1] eqn:Hc;
    pose proof (getCSRFToken_inv _ _ _ Hc) as ->; [|reflexivity].
  destruct (truthy csrf); simpl; [|reflexivity].
  rewrite fetch_run. simpl. unfold logout_request.
  destruct (net w _ _ _) as [[res|e] jar]; simpl; [|reflexivity].
  destruct (ok res); simpl; [|reflexivity].
  destruct (truthy _); [|reflexivity].
  unfold set_location_href. simpl url_parses.
  destruct (url_parses w _); reflexivity.
Qed.

Lemma truthy_Some (v : option jsstring) :
  truthy v = true -> exists tok, v = Some tok /\ tok <> [].
Proof. destruct v as [[|c t]|]; try discriminate. intros _. eexists; split; [reflexivity|discriminate]. Qed.

(** What a call of [refreshSession] can do: throw out of the cookie read,
    give up before the network, or send exactly one refresh request. *)
Lemma refreshSession_cases a w c w2 :
  refreshSession a w = (c, w2) ->
  (exists e, c = Throw e /\ w2 = w /\ getCSRFToken w = (Throw e, w))
  \/ (c = Normal false /\ w2 = w /\
      exists csrf, getCSRFToken w = (Normal csrf, w) /\
        (truthy csrf = false \/ Encode (default (lit "app") a) = None))
  \/ (exists tok enc,
        getCSRFToken w = (Normal (Some tok), w) /\ tok <> [] /\
        Encode (default (lit "app") a) = Some enc /\
        let r := net w (calls w) (cookie w) (refresh_request enc tok) in
        w2 = after_call w (refresh_request enc tok) r.2 /\
        c = Normal (match r.1 with Normal res => ok res | Throw _ => false end)).
Proof.
  rewrite refreshSession_run.
  destruct (getCSRFToken w) as [[csrf|e] w1] eqn:Hc;
    pose proof (getCSRFToken_inv _ _ _ Hc) as ->.
  - destruct (truthy csrf) eqn:Ht.
    + destruct (truthy_Some _ Ht) as (tok & -> & Hne).
      destruct (Encode _) as [enc|] eqn:He.
      * simpl. intros [= <- <-]. right; right. exists tok, enc. auto.
      * intros [= <- <-]. right; left. eauto 10.
    + intros [= <- <-]. right; left. eauto 10.
  - intros [= <- <-]. left. eauto.
Qed.

Lemma issued_app w w' l : calls w' = calls w ++ l -> issued w w' = l.
Proof. intros H. unfold issued. rewrite H. apply drop_app_length. Qed.

Lemma issued_refl w : issued w w = [].
Proof. apply issued_app. symmetry. apply app_nil_r. Qed.

(** ** [authFetch] and [getCurrentUser], step by step *)

Lemma authFetch_run input init opts w :
  authFetch input init opts w =
    match fetch input (withCredentials (default ∅ init)) w with
    | (Throw e, w1) => (Throw e, w1)
    | (Normal res, w1) =>
        if status res =? 401 then
          match refreshSession (Some (default (lit "app") (opts ≫= audience))) w1 with
          | (Throw e, w2) => (Throw e, w2)
          | (Normal true, w2) => fetch input (withCredentials (default ∅ init)) w2
          | (Normal false, w2) => (Normal res, w2)
          end
        else (Normal res, w1)
    end.
Proof.
  unfold authFetch. run. cbv zeta.
  destruct (fetch _ _ w) as [[res|e] w1]; [|reflexivity].
  destruct (status res =? 401); simpl; [|reflexivity].
  destruct (refreshSession _ w1) as [[[|]|e] w2]; reflexivity.
Qed.

Lemma getCurrentUser_run opts w :
  getCurrentUser opts w =
    match user_lookup opts w with
    | (Throw _, w1) => (Normal JNull, w1)
    | (Normal res, w1) =>
        if ok res then
          match json res with
          | Normal v => (Normal v, w1)
          | Throw _ => (Normal JNull, w1)
          end
        else (Normal JNull, w1)
    end.
Proof.
  unfold getCurrentUser, user_lookup. run.
  destruct (authFetch _ _ _ w) as [[res|e] w1]; [|reflexivity].
  destruct (ok res); simpl; [|reflexivity].
  unfold res_json. destruct (json res); reflexivity.
Qed.

(** ** URI component coding: decoding undoes encoding *)

Ltac zb :=
  repeat (match goal with
          | |- context [?a <=? ?b] => destruct (Z.leb_spec a b)
          | |- context [?a <? ?b] => destruct (Z.ltb_spec a b)
          | |- context [?a =? ?b] => destruct (Z.eqb_spec a b)
          | H : context [?a <=? ?b] |- _ => destruct (Z.leb_spec a b)
          | H : context [?a <? ?b] |- _ => destruct (Z.ltb_spec a b)
          | H : context [?a =? ?b] |- _ => destruct (Z.eqb_spec a b)
          end; simpl in *; try lia; try discriminate).

Lemma hexval_hexdigit d : 0 <= d < 16 -> hexval (hexdigit d) = Some d.
Proof.
  intros H. unfold hexval, hexdigit, in_range.
  zb; f_equal; lia.
Qed.

Lemma ParseHexOctet_pct b :
  0 <= b < 256 -> ParseHexOctet (hexdigit (b / 16)) (hexdigit (b mod 16)) = Some b.
Proof.
  intros H. unfold ParseHexOctet.
  rewrite !hexval_hexdigit by (Z.div_mod_to_equations; lia).
  f_equal. Z.div_mod_to_equations; lia.
Qed.

Lemma unescaped_hexdigit d : 0 <= d < 16 -> unescaped (hexdigit d) = true.
Proof.
  intros H. unfold unescaped, hexdigit, in_range.
  zb; reflexivity.
Qed.

Lemma unescaped_plain c :
  unescaped c = true -> c <> 37 /\ c <> 59 /\ c <> 61 /\ c <> 32.
Proof.
  unfold unescaped, in_range. intros H.
  repeat split; intros ->; discriminate H.
Qed.

#[local] Arguments ParseHexOctet : simpl never.
#[local] Arguments leading_ones : simpl never.
#[local] Arguments decode_octets : simpl never.
#[local] Arguments hexdigit : simpl never.
#[local] Arguments Z.div : simpl never.
#[local] Arguments Z.modulo : simpl never.

(** The equations of [Decode], one per kind of code unit it meets. *)
Lemma Decode_plain c r : c <> 37 -> Decode (c :: r) = cons c <$> Decode r.
Proof. intros H. simpl. destruct (Z.eqb_spec c 37); [contradiction|reflexivity]. Qed.

Lemma Decode_escape1 h1 l1 r b1 :
  ParseHexOctet h1 l1 = Some b1 -> leading_ones b1 = 0%nat ->
  Decode (37 :: h1 :: l1 :: r) = cons b1 <$> Decode r.
Proof. intros H1 Hn. simpl. rewrite H1. simpl. rewrite Hn. reflexivity. Qed.

Lemma Decode_escape2 h1 l1 h2 l2 r b1 b2 u :
  ParseHexOctet h1 l1 = Some b1 -> leading_ones b1 = 2%nat ->
  ParseHexOctet h2 l2 = Some b2 ->
  decode_octets [b1; b2] = Some u ->
  Decode (37 :: h1 :: l1 :: 37 :: h2 :: l2 :: r) = app u <$> Decode r.
Proof.
  intros H1 Hn H2 Hu. simpl. rewrite H1. simpl. rewrite Hn, H2. simpl.
  rewrite Hu. reflexivity.
Qed.

Lemma Decode_escape3 h1 l1 h2 l2 h3 l3 r b1 b2 b3 u :
  ParseHexOctet h1 l1 = Some b1 -> leading_ones b1 = 3%nat ->
  ParseHexOctet h2 l2 = Some b2 -> ParseHexOctet h3 l3 = Some b3 ->
  decode_octets [b1; b2; b3] = Some u ->
  Decode (37 :: h1 :: l1 :: 37 :: h2 :: l2 :: 37 :: h3 :: l3 :: r)
  = app u <$> Decode r.
Proof.
  intros H1 Hn H2 H3 Hu. simpl. rewrite H1. simpl. rewrite Hn, H2. simpl.
  rewrite H3. simpl. rewrite Hu. reflexivity.
Qed.

Lemma Decode_escape4 h1 l1 h2 l2 h3 l3 h4 l4 r b1 b2 b3 b4 u :
  ParseHexOctet h1 l1 = Some b1 -> leading_ones b1 = 4%nat ->
  ParseHexOctet h2 l2 = Some b2 -> ParseHexOctet h3 l3 = Some b3 ->
  ParseHexOctet h4 l4 = Some b4 ->
  decode_octets [b1; b2; b3; b4] = Some u ->
  Decode (37 :: h1 :: l1 :: 37 :: h2 :: l2 :: 37 :: h3 :: l3
             :: 37 :: h4 :: l4 :: r)
  = app u <$> Decode r.
Proof.
  intros H1 Hn H2 H3 H4 Hu. simpl. rewrite H1. simpl. rewrite Hn, H2. simpl.
  rewrite H3. simpl. rewrite H4. simpl. rewrite Hu. reflexivity.
Qed.

(** UTF-8 decoding undoes UTF-8 encoding on every scalar value above
    U+007F. *)
Lemma decode_octets_utf8_encode v :
  scalar v -> 128 <= v ->
  decode_octets (utf8_encode v) = Some (UTF16EncodeCodePoint v).
Proof.
  intros [Hr Hs] Hv. unfold decode_octets, utf8_encode.
  destruct (Z.leb_spec v 127); [lia|].
  destruct (Z.leb_spec v 2047); [|destruct (Z.leb_spec v 65535)];
    unfold utf8_decode, continuation, in_range.
  - replace ((192 + v / 64 - 192) * 64 + (128 + v mod 64 - 128)) with v
      by (Z.div_mod_to_equations; lia).
    assert (0 <= v mod 64 < 64) by (apply Z.mod_pos_bound; lia).
    zb; reflexivity.
  - replace ((224 + v / 4096 - 224) * 4096 + (128 + (v / 64) mod 64 - 128) * 64
             + (128 + v mod 64 - 128)) with v
      by (Z.div_mod_to_equations; lia).
    assert (0 <= v mod 64 < 64) by (apply Z.mod_pos_bound; lia).
    assert (0 <= (v / 64) mod 64 < 64) by (apply Z.mod_pos_bound; lia).
    zb; reflexivity.
  - replace ((240 + v / 262144 - 240) * 262144
             + (128 + (v / 4096) mod 64 - 128) * 4096
             + (128 + (v / 64) mod 64 - 128) * 64
             + (128 + v mod 64 - 128)) with v
      by (Z.div_mod_to_equations; lia).
    assert (0 <= v mod 64 < 64) by (apply Z.mod_pos_bound; lia).
    assert (0 <= (v / 64) mod 64 < 64) by (apply Z.mod_pos_bound; lia).
    assert (0 <= (v / 4096) mod 64 < 64) by (apply Z.mod_pos_bound; lia).
    zb; reflexivity.
Qed.

Lemma utf8_encode_octets v b :
  0 <= v <= 1114111 -> b ∈ utf8_encode v -> 0 <= b < 256.
Proof.
  intros Hv. unfold utf8_encode.
  assert (0 <= v mod 64 < 64) by (apply Z.mod_pos_bound; lia).
  assert (0 <= (v / 64) mod 64 < 64) by (apply Z.mod_pos_bound; lia).
  assert (0 <= (v / 4096) mod 64 < 64) by (apply Z.mod_pos_bound; lia).
  zb; rewrite ?elem_of_cons, elem_of_nil; intros Hb;
    Z.div_mod_to_equations; lia.
Qed.

(** [Decode] reads a code point back from its percent-encoded UTF-8 form. *)
Lemma Decode_pct_all v r :
  scalar v ->
  Decode (pct_all (utf8_encode v) ++ r) = app (UTF16EncodeCodePoint v) <$> Decode r.
Proof.
  intros Hs.
  assert (Hb : forall b, b ∈ utf8_encode v -> 0 <= b < 256)
    by (intros b; apply utf8_encode_octets, Hs).
  destruct (Z.leb_spec v 127) as [Hv|Hv].
  - unfold utf8_encode, UTF16EncodeCodePoint in *.
    destruct (Z.leb_spec v 127); [|lia]. destruct (Z.leb_spec v 65535); [|lia].
    unfold pct_all, pct. simpl.
    apply Decode_escape1.
    + apply ParseHexOctet_pct, Hb. left.
    + unfold leading_ones. zb; reflexivity.
  - pose proof (decode_octets_utf8_encode v Hs ltac:(lia)) as Hd.
    destruct Hs as [Hr Hs].
    assert (0 <= v mod 64 < 64) by (apply Z.mod_pos_bound; lia).
    assert (0 <= (v / 64) mod 64 < 64) by (apply Z.mod_pos_bound; lia).
    assert (0 <= (v / 4096) mod 64 < 64) by (apply Z.mod_pos_bound; lia).
    unfold utf8_encode in *.
    destruct (Z.leb_spec v 127); [lia|].
    destruct (Z.leb_spec v 2047); [|destruct (Z.leb_spec v 65535)];
      unfold pct_all, pct; simpl.
    + assert (2 <= v / 64 < 32) by (Z.div_mod_to_equations; lia).
      eapply Decode_escape2; eauto;
        try (apply ParseHexOctet_pct, Hb; repeat constructor).
      unfold leading_ones. zb; reflexivity.
    + assert (0 <= v / 4096 < 16) by (Z.div_mod_to_equations; lia).
      eapply Decode_escape3; eauto;
        try (apply ParseHexOctet_pct, Hb; repeat constructor).
      unfold leading_ones. zb; reflexivity.
    + assert (0 <= v / 262144 < 8) by (Z.div_mod_to_equations; lia).
      eapply Decode_escape4; eauto;
        try (apply ParseHexOctet_pct, Hb; repeat constructor).
      unfold leading_ones. zb; reflexivity.
Qed.

Lemma pair_scalar c d :
  is_lead c = true -> is_trail d = true ->
  scalar (UTF16SurrogatePairToCodePoint c d)
  /\ UTF16EncodeCodePoint (UTF16SurrogatePairToCodePoint c d) = [c; d].
Proof.
  unfold is_lead, is_trail, in_range, scalar, UTF16SurrogatePairToCodePoint,
    UTF16EncodeCodePoint.
  intros Hc Hd. zb. split; [lia|].
  f_equal; [|f_equal]; Z.div_mod_to_equations; lia.
Qed.

Lemma unit_scalar c :
  code_unit c -> is_lead c = false -> is_trail c = false ->
  scalar c /\ UTF16EncodeCodePoint c = [c].
Proof.
  unfold code_unit, is_lead, is_trail, in_range, scalar, UTF16EncodeCodePoint.
  intros Hc Hl Ht. zb; (split; [lia|reflexivity]).
Qed.

Lemma pct_all_safe v :
  0 <= v <= 1114111 -> Forall uri_safe (pct_all (utf8_encode v)).
Proof.
  intros Hv.
  assert (Hb : forall b, b ∈ utf8_encode v -> 0 <= b < 256)
    by (intros b; apply utf8_encode_octets, Hv).
  unfold pct_all. induction (utf8_encode v) as [|b bs IH]; [constructor|].
  simpl. assert (0 <= b < 256) by (apply Hb; left).
  apply Forall_cons; split; [right; reflexivity|].
  apply Forall_cons; split;
    [left; apply unescaped_hexdigit; Z.div_mod_to_equations; lia|].
  apply Forall_cons; split;
    [left; apply unescaped_hexdigit; Z.div_mod_to_equations; lia|].
  apply IH. intros b' Hb'. apply Hb. right. exact Hb'.
Qed.

Lemma Encode_Decode_bounded n : forall t e,
  (length t <= n)%nat -> Forall code_unit t -> Encode t = Some e ->
  Decode e = Some t /\ Forall uri_safe e.
Proof.
  induction n as [|n IH]; intros [|c rest] e Hn Hw He; simpl in Hn; try lia;
    try (injection He as <-; split; [reflexivity|constructor]).
  apply Forall_cons in Hw as [Hc Hw].
  simpl in He.
  destruct (unescaped c) eqn:Hu.
  { destruct (Encode rest) as [e'|] eqn:He'; [|discriminate].
    injection He as <-.
    destruct (IH rest e' ltac:(lia) Hw He') as [Hd Hs].
    split; [|constructor; [left; exact Hu|exact Hs]].
    rewrite Decode_plain by (apply unescaped_plain, Hu). rewrite Hd. reflexivity. }
  destruct (is_trail c) eqn:Ht; [discriminate|].
  destruct (is_lead c) eqn:Hl.
  - destruct rest as [|d rest']; [discriminate|].
    destruct (is_trail d) eqn:Htd; [|discriminate].
    destruct (Encode rest') as [e'|] eqn:He'; [|discriminate].
    injection He as <-.
    apply Forall_cons in Hw as [_ Hw]. simpl in Hn.
    destruct (IH rest' e' ltac:(lia) Hw He') as [Hd Hs].
    destruct (pair_scalar c d Hl Htd) as [Hsc Hu16].
    split.
    + rewrite Decode_pct_all by exact Hsc. rewrite Hd, Hu16. reflexivity.
    + apply Forall_app. split; [apply pct_all_safe, Hsc|exact Hs].
  - destruct (Encode rest) as [e'|] eqn:He'; [|discriminate].
    injection He as <-.
    destruct (IH rest e' ltac:(lia) Hw He') as [Hd Hs].
    destruct (unit_scalar c Hc Hl Ht) as [Hsc Hu16].
    split.
    + rewrite Decode_pct_all by exact Hsc. rewrite Hd, Hu16. reflexivity.
    + apply Forall_app. split; [apply pct_all_safe, Hsc|exact Hs].
Qed.

(** [decodeURIComponent(encodeURIComponent(t))] is [t]. *)
Lemma Encode_Decode t e :
  Forall code_unit t -> Encode t = Some e -> Decode e = Some t.
Proof. intros Hw He. eapply Encode_Decode_bounded; eauto. Qed.

Lemma Encode_safe t e :
  Forall code_unit t -> Encode t = Some e -> Forall uri_safe e.
Proof. intros Hw He. eapply Encode_Decode_bounded; eauto. Qed.

(** [Encode] throws only on an unpaired surrogate: it succeeds whenever the
    string holds none. *)
Lemma Encode_total t :
  Forall (fun c => is_lead c = false /\ is_trail c = false) t -> is_Some (Encode t).
Proof.
  induction t as [|c t IH]; intros H; [eexists; reflexivity|].
  apply Forall_cons in H as [[Hl Ht] H]. destruct (IH H) as [e He].
  simpl. rewrite Hl, Ht, He. destruct (unescaped c); eexists; reflexivity.
Qed.

(** ** [split], [join] and the entry [getCookie] selects *)

Lemma startsWith_app p r : startsWith (p ++ r) p = true.
Proof. induction p as [|a p IH]; simpl; [reflexivity|]. rewrite Z.eqb_refl. exact IH. Qed.

Lemma startsWith_prefix s p : startsWith s p = true -> exists r, s = p ++ r.
Proof.
  revert s. induction p as [|a p IH]; intros s H; [exists s; reflexivity|].
  destruct s as [|b s]; [discriminate|]. simpl in H.
  apply andb_true_iff in H as [Hab H]. apply Z.eqb_eq in Hab as ->.
  destruct (IH _ H) as [r ->]. exists r. reflexivity.
Qed.

Section Split.

(** A separator [a :: sep'] and pieces that do not hold [a]: the case of
    cookie names and values, which hold neither [;] nor, for names, [=]. *)
Variable a : Z.
Variable sep' : jsstring.

Lemma split_go_skip pre k cur rest :
  length pre = k ->
  split_go (a :: sep') k cur (pre ++ rest) = split_go (a :: sep') O cur rest.
Proof.
  intros <-. induction pre as [|c pre IH]; simpl; [reflexivity|exact IH].
Qed.

(** No occurrence of the separator's first code unit: one piece. *)
Lemma split_go_none cur s :
  a ∉ s -> split_go (a :: sep') O cur s = [reverse cur ++ s].
Proof.
  revert cur. induction s as [|c s IH]; intros cur Hs.
  - simpl. rewrite app_nil_r. reflexivity.
  - apply not_elem_of_cons in Hs as [Hc Hs].
    cbn [split_go startsWith]. destruct (Z.eqb_spec a c); [congruence|].
    cbn [andb]. rewrite IH by exact Hs. rewrite reverse_cons, <- app_assoc. reflexivity.
Qed.

(** The piece before the leftmost separator, then the pieces after it. *)
Lemma split_go_first cur x rest :
  a ∉ x ->
  split_go (a :: sep') O cur (x ++ (a :: sep') ++ rest)
  = (reverse cur ++ x) :: split_go (a :: sep') O [] rest.
Proof.
  revert cur. induction x as [|c x IH]; intros cur Hx.
  - rewrite app_nil_l, app_nil_r.
    change ((a :: sep') ++ rest) with (a :: (sep' ++ rest)).
    cbn [split_go]. change (a :: sep' ++ rest) with ((a :: sep') ++ rest).
    rewrite startsWith_app. cbn [length Nat.pred].
    rewrite split_go_skip by reflexivity. reflexivity.
  - apply not_elem_of_cons in Hx as [Hc Hx].
    change ((c :: x) ++ (a :: sep') ++ rest) with (c :: (x ++ (a :: sep') ++ rest)).
    cbn [split_go startsWith]. destruct (Z.eqb_spec a c); [congruence|].
    cbn [andb]. rewrite IH by exact Hx. rewrite reverse_cons, <- app_assoc. reflexivity.
Qed.

Lemma split_single s : a ∉ s -> split s (a :: sep') = [s].
Proof. intros H. unfold split. rewrite split_go_none by exact H. reflexivity. Qed.

Lemma split_cons x rest :
  a ∉ x -> split (x ++ (a :: sep') ++ rest) (a :: sep') = x :: split rest (a :: sep').
Proof. intros H. unfold split. rewrite split_go_first by exact H. reflexivity. Qed.

(** [split] undoes [join] on pieces free of the separator's first code unit. *)
Lemma split_join l :
  l <> [] -> Forall (fun x => a ∉ x) l -> split (join (a :: sep') l) (a :: sep') = l.
Proof.
  induction l as [|x l IH]; intros Hne Hl; [contradiction|].
  apply Forall_cons in Hl as [Hx Hl].
  destruct l as [|y l].
  - simpl. apply split_single, Hx.
  - change (join (a :: sep') (x :: y :: l))
      with (x ++ (a :: sep') ++ join (a :: sep') (y :: l)).
    rewrite split_cons by exact Hx. f_equal. apply IH; [discriminate|exact Hl].
Qed.

End Split.

Lemma find_app_skip {A} (f : A -> bool) before m after :
  Forall (fun x => f x = false) before -> f m = true ->
  List.find f (before ++ m :: after) = Some m.
Proof.
  intros Hb Hm. induction Hb as [|x l Hx _ IH]; simpl.
  - rewrite Hm. reflexivity.
  - rewrite Hx. exact IH.
Qed.

(** The entry selected in a cookie header made of [;]-free entries: the
    first one that starts with [name=]. *)
Lemma cookie_entry_join name before m after :
  Forall (fun x => 59 ∉ x) (before ++ m :: after) ->
  Forall (fun x => startsWith x (name ++ lit "=") = false) before ->
  startsWith m (name ++ lit "=") = true ->
  cookie_entry name (join (lit "; ") (before ++ m :: after)) = Some m.
Proof.
  intros Hsemi Hb Hm. unfold cookie_entry.
  change (lit "; ") with [59; 32].
  rewrite split_join; [|destruct before; discriminate|exact Hsemi].
  apply find_app_skip; assumption.
Qed.

Lemma cookie_entry_absent name jar :
  Forall (fun x => startsWith x (name ++ lit "=") = false) (split jar (lit "; ")) ->
  cookie_entry name jar = None.
Proof.
  unfold cookie_entry. induction 1 as [|x l Hx _ IH]; simpl; [reflexivity|].
  rewrite Hx. exact IH.
Qed.

Lemma uri_safe_plain e c :
  Forall uri_safe e -> c = 59 \/ c = 61 -> c ∉ e.
Proof.
  intros He Hc Hin. rewrite Forall_forall in He. destruct (He _ Hin) as [Hu| ->].
  - apply unescaped_plain in Hu. lia.
  - lia.
Qed.

(** ** [authFetch]: the refresh-once machine *)

Lemma withCredentials_forced init :
  withCredentials init !! "credentials"%string = Some (JStr (lit "include"))
  /\ forall k, k <> "credentials"%string -> withCredentials init !! k = init !! k.
Proof.
  unfold withCredentials. split; [apply lookup_insert_eq|].
  intros k Hk. apply lookup_insert_ne. congruence.
Qed.

Lemma fetch_issued input init w c w1 :
  fetch input init w = (c, w1) -> calls w1 = calls w ++ [mkRequest input init].
Proof. rewrite fetch_run. intros [= _ <-]. reflexivity. Qed.

(** C1 (as amended): [authFetch] sends the caller's request once with
    [credentials] forced to [include] and nothing else changed.  A first
    response other than 401 is returned as it is after that single call.  On
    a 401, when [refreshSession] returns false the original 401 response is
    returned, after two calls if the refresh request was sent and after one
    if [refreshSession] gave up before the network (CSRF token absent or
    empty, or audience not encodable); when it returns true the same request
    is sent once more and whatever that call settles to is the result, the
    calls being original, refresh, retry, with no further refresh. *)
Theorem authFetch_refresh_once input init opts w res w1 :
  fetch input (withCredentials (default ∅ init)) w = (Normal res, w1) ->
  let aud := default (lit "app") (opts ≫= audience) in
  let rq := forced input init in
  (req_init rq !! "credentials"%string = Some (JStr (lit "include"))
   /\ (forall k, k <> "credentials"%string ->
         req_init rq !! k = default ∅ init !! k)
   /\ issued w w1 = [rq])
  /\ (status res <> 401 -> authFetch input init opts w = (Normal res, w1))
  /\ (status res = 401 -> forall w2,
        refreshSession (Some aud) w1 = (Normal false, w2) ->
        authFetch input init opts w = (Normal res, w2)
        /\ ((issued w w2 = [rq]
             /\ exists csrf, getCSRFToken w1 = (Normal csrf, w1)
                  /\ (truthy csrf = false \/ Encode aud = None))
            \/ (exists enc tok,
                  getCSRFToken w1 = (Normal (Some tok), w1) /\ tok <> []
                  /\ Encode aud = Some enc
                  /\ issued w w2 = [rq; refresh_request enc tok])))
  /\ (status res = 401 -> forall w2,
        refreshSession (Some aud) w1 = (Normal true, w2) ->
        exists enc tok,
          issued w w2 = [rq; refresh_request enc tok]
          /\ forall out w3,
               fetch input (withCredentials (default ∅ init)) w2 = (out, w3) ->
               authFetch input init opts w = (out, w3)
               /\ issued w w3 = [rq; refresh_request enc tok; rq]).
Proof.
  intros Hf aud rq.
  pose proof (fetch_issued _ _ _ _ _ Hf) as Hc1. fold (forced input init) in Hc1.
  fold rq in Hc1.
  repeat split.
  - apply withCredentials_forced.
  - intros k Hk. apply withCredentials_forced, Hk.
  - apply issued_app, Hc1.
  - intros Hs. rewrite authFetch_run, Hf.
    destruct (Z.eqb_spec (status res) 401); [contradiction|reflexivity].
  - rewrite authFetch_run, Hf, H, Z.eqb_refl. fold aud. rewrite H0. reflexivity.
  - destruct (refreshSession_cases _ _ _ _ H0)
      as [(e & He & _)|[(_ & -> & csrf & Hc & Hwhy)|(tok & enc & Hc & Hne & He & Hw2 & Hb)]];
      [discriminate| |].
    + left. split; [apply issued_app, Hc1|]. exists csrf. auto.
    + right. exists enc, tok. repeat split; try assumption.
      apply issued_app. cbv zeta in Hw2. rewrite Hw2. simpl.
      rewrite Hc1, <- app_assoc. reflexivity.
  - intros Hs w2 Hr.
    destruct (refreshSession_cases _ _ _ _ Hr)
      as [(e & He & _)|[(Hb & _)|(tok & enc & Hc & Hne & He & Hw2 & Hb)]];
      try discriminate.
    exists enc, tok.
    assert (Hc2 : calls w2 = calls w ++ [rq; refresh_request enc tok]).
    { cbv zeta in Hw2. rewrite Hw2. simpl. rewrite Hc1, <- app_assoc. reflexivity. }
    split; [apply issued_app, Hc2|].
    intros out w3 Hf3. split.
    + rewrite authFetch_run, Hf, Hs, Z.eqb_refl. fold aud. rewrite Hr. exact Hf3.
    + apply issued_app. rewrite (fetch_issued _ _ _ _ _ Hf3), Hc2, <- app_assoc.
      reflexivity.
Qed.

Lemma authFetch_refresh_once_witness :
  let w1 := after_call world_retry (forced api_data None) (lit "authgate_csrf=abc") in
  fetch api_data (withCredentials (default ∅ None)) world_retry = (Normal (resp 401), w1)
  /\ issued world_retry w1 = [forced api_data None].
Proof.
  intros w1.
  assert (H : fetch api_data (withCredentials (default ∅ None)) world_retry
              = (Normal (resp 401), w1)) by (vm_compute; reflexivity).
  split; [exact H|].
  exact (proj2 (proj2 (proj1
           (authFetch_refresh_once api_data None None world_retry _ _ H)))).
Defined.

(** With no CSRF cookie the 401 comes back after one call, not two:
    [refreshSession] returns false without touching the network. *)
Lemma authFetch_failed_refresh_one_call :
  let w1 := after_call world_no_cookie (forced api_data None) [] in
  fetch api_data (withCredentials (default ∅ None)) world_no_cookie
    = (Normal (resp 401), w1)
  /\ status (resp 401) = 401
  /\ refreshSession (Some (lit "app")) w1 = (Normal false, w1)
  /\ authFetch api_data None None world_no_cookie = (Normal (resp 401), w1)
  /\ issued world_no_cookie w1 = [forced api_data None]
  /\ length (issued world_no_cookie w1) <> 2%nat.
Proof. vm_compute. repeat split; discriminate. Qed.

(** Every way a call of [authFetch] can go once the first response is a
    401. *)
Lemma authFetch_401_cases input init opts w res w1 c w' :
  fetch input (withCredentials (default ∅ init)) w = (Normal res, w1) ->
  status res = 401 ->
  authFetch input init opts w = (c, w') ->
  let aud := default (lit "app") (opts ≫= audience) in
  (exists e, getCSRFToken w1 = (Throw e, w1) /\ c = Throw e /\ w' = w1)
  \/ (exists csrf, getCSRFToken w1 = (Normal csrf, w1)
        /\ (truthy csrf = false \/ Encode aud = None)
        /\ c = Normal res /\ w' = w1)
  \/ (exists tok enc,
        getCSRFToken w1 = (Normal (Some tok), w1) /\ tok <> []
        /\ Encode aud = Some enc
        /\ let r := net w1 (calls w1) (cookie w1) (refresh_request enc tok) in
           let w2 := after_call w1 (refresh_request enc tok) r.2 in
           ((match r.1 with Normal rr => ok rr | Throw _ => false end) = false
            /\ c = Normal res /\ w' = w2)
           \/ ((match r.1 with Normal rr => ok rr | Throw _ => false end) = true
               /\ fetch input (withCredentials (default ∅ init)) w2 = (c, w'))).
Proof.
  intros Hf Hs. rewrite authFetch_run, Hf, Hs, Z.eqb_refl. intros Ha aud.
  fold aud in Ha.
  destruct (refreshSession (Some aud) w1) as [b w2] eqn:Hr.
  destruct (refreshSession_cases _ _ _ _ Hr)
    as [(e & -> & -> & Hc)|[(-> & -> & csrf & Hc & Hwhy)
                            |(tok & enc & Hc & Hne & He & Hw2 & Hb)]].
  - injection Ha as <- <-. left. eauto.
  - injection Ha as <- <-. right; left. eauto 10.
  - right; right. exists tok, enc. repeat (split; [assumption|]).
    cbv zeta in *. subst b w2.
    destruct (match (net w1 (calls w1) (cookie w1) (refresh_request enc tok)).1
              with Normal rr => ok rr | Throw _ => false end).
    + right. auto.
    + left. injection Ha as <- <-. auto.
Qed.

Lemma issued_after_two w w1 rq rf jar :
  calls w1 = calls w ++ [rq] ->
  issued w (after_call w1 rf jar) = [rq; rf].
Proof. intros H. apply issued_app. simpl. rewrite H, <- app_assoc. reflexivity. Qed.

(** C2: when the first response is a 401, the second call [authFetch]
    makes, if it makes one, is the refresh request for the audience it was
    given: [POST /auth/refresh?audience=] followed by the URL-encoded
    audience; it is made whenever the CSRF token is readable and the
    audience can be encoded.  Without an audience option [authFetch] and
    [refreshSession] use ["app"]. *)
Theorem authFetch_refresh_audience a input init w :
  (forall res w1,
     fetch input (withCredentials (default ∅ init)) w = (Normal res, w1) ->
     status res = 401 ->
     (forall c w' rf,
        authFetch input init (Some (mkAuthOpts (Some a))) w = (c, w') ->
        issued w w' !! 1%nat = Some rf ->
        exists enc tok,
          Encode a = Some enc
          /\ getCSRFToken w1 = (Normal (Some tok), w1)
          /\ rf = refresh_request enc tok
          /\ req_input rf = InputString (lit "/auth/refresh?audience=" ++ enc)
          /\ req_init rf !! "method"%string = Some (JStr (lit "POST")))
     /\ (forall tok enc,
           getCSRFToken w1 = (Normal (Some tok), w1) -> tok <> [] ->
           Encode a = Some enc ->
           issued w (authFetch input init (Some (mkAuthOpts (Some a))) w).2 !! 1%nat
           = Some (refresh_request enc tok)))
  /\ authFetch input init None w
     = authFetch input init (Some (mkAuthOpts (Some (lit "app")))) w
  /\ authFetch input init (Some (mkAuthOpts None)) w
     = authFetch input init (Some (mkAuthOpts (Some (lit "app")))) w
  /\ refreshSession None w = refreshSession (Some (lit "app")) w.
Proof.
  split; [|repeat split; reflexivity].
  intros res w1 Hf Hs.
  pose proof (fetch_issued _ _ _ _ _ Hf) as Hc1.
  split.
  - intros c w' rf Ha Hrf.
    destruct (authFetch_401_cases _ _ _ _ _ _ _ _ Hf Hs Ha)
      as [(e & _ & _ & ->)|[(csrf & _ & _ & _ & ->)
                            |(tok & enc & Hc & Hne & He & Hcase)]].
    + rewrite (issued_app _ _ _ Hc1) in Hrf. discriminate.
    + rewrite (issued_app _ _ _ Hc1) in Hrf. discriminate.
    + simpl in He. exists enc, tok. cbv zeta in Hcase.
      assert (rf = refresh_request enc tok) as ->.
      { destruct Hcase as [(_ & _ & ->)|(_ & Hf3)].
        - rewrite (issued_after_two _ _ _ _ _ Hc1) in Hrf. simpl in Hrf. congruence.
        - pose proof (fetch_issued _ _ _ _ _ Hf3) as Hc3. simpl in Hc3.
          rewrite Hc1, <- !app_assoc in Hc3.
          rewrite (issued_app _ _ _ Hc3) in Hrf. simpl in Hrf. congruence. }
      repeat split; assumption || reflexivity.
  - intros tok enc Hc Hne He.
    destruct (authFetch input init (Some (mkAuthOpts (Some a))) w) as [c w'] eqn:Ha.
    destruct (authFetch_401_cases _ _ _ _ _ _ _ _ Hf Hs Ha)
      as [(e & Hc' & _)|[(csrf & Hc' & Hwhy & _)
                         |(tok' & enc' & Hc' & _ & He' & Hcase)]];
      simpl in *.
    + congruence.
    + rewrite Hc in Hc'. injection Hc' as <-.
      destruct Hwhy as [Ht|Hn]; [|congruence].
      destruct tok; [contradiction|discriminate].
    + rewrite Hc in Hc'. injection Hc' as <-. rewrite He in He'. injection He' as <-.
      destruct Hcase as [(_ & _ & ->)|(_ & Hf3)].
      * rewrite (issued_after_two _ _ _ _ _ Hc1). reflexivity.
      * pose proof (fetch_issued _ _ _ _ _ Hf3) as Hc3. simpl in Hc3.
        rewrite Hc1, <- !app_assoc in Hc3.
        rewrite (issued_app _ _ _ Hc3). reflexivity.
Qed.

Lemma authFetch_refresh_audience_witness :
  issued world_retry
    (authFetch api_data None (Some (mkAuthOpts (Some (lit "admin")))) world_retry).2
    !! 1%nat
  = Some (refresh_request (lit "admin") (lit "abc")).
Proof.
  refine (proj2 (proj1 (authFetch_refresh_audience (lit "admin") api_data None
                          world_retry)
                   (resp 401)
                   (after_call world_retry (forced api_data None)
                      (lit "authgate_csrf=abc"))
                   _ _)
            (lit "abc") (lit "admin") _ _ _);
    solve [vm_compute; reflexivity | discriminate].
Defined.

(** ** What [authFetch] throws *)

Lemma authFetch_propagates_initial input init opts w e w1 :
  fetch input (withCredentials (default ∅ init)) w = (Throw e, w1) ->
  authFetch input init opts w = (Throw e, w1).
Proof. intros Hf. rewrite authFetch_run, Hf. reflexivity. Qed.

Lemma authFetch_propagates_retry input init opts w res w1 w2 e w3 :
  fetch input (withCredentials (default ∅ init)) w = (Normal res, w1) ->
  status res = 401 ->
  refreshSession (Some (default (lit "app") (opts ≫= audience))) w1
    = (Normal true, w2) ->
  fetch input (withCredentials (default ∅ init)) w2 = (Throw e, w3) ->
  authFetch input init opts w = (Throw e, w3).
Proof.
  intros Hf Hs Hr Hf3. rewrite authFetch_run, Hf, Hs, Z.eqb_refl, Hr. exact Hf3.
Qed.

Lemma authFetch_absorbs_failed_refresh input init opts w res w1 w2 :
  fetch input (withCredentials (default ∅ init)) w = (Normal res, w1) ->
  status res = 401 ->
  refreshSession (Some (default (lit "app") (opts ≫= audience))) w1
    = (Normal false, w2) ->
  authFetch input init opts w = (Normal res, w2).
Proof.
  intros Hf Hs Hr. rewrite authFetch_run, Hf, Hs, Z.eqb_refl, Hr. reflexivity.
Qed.

(** Where an exception of [authFetch] comes from: the first [fetch], the
    retried [fetch], or the CSRF cookie read inside [refreshSession]. *)
Lemma authFetch_throw_sources input init opts w e w' :
  authFetch input init opts w = (Throw e, w') ->
  fetch input (withCredentials (default ∅ init)) w = (Throw e, w')
  \/ (exists res w1 w2,
        fetch input (withCredentials (default ∅ init)) w = (Normal res, w1)
        /\ status res = 401
        /\ refreshSession (Some (default (lit "app") (opts ≫= audience))) w1
           = (Normal true, w2)
        /\ fetch input (withCredentials (default ∅ init)) w2 = (Throw e, w'))
  \/ (exists res,
        fetch input (withCredentials (default ∅ init)) w = (Normal res, w')
        /\ status res = 401
        /\ getCSRFToken w' = (Throw e, w') /\ e = URIError).
Proof.
  rewrite authFetch_run.
  destruct (fetch input (withCredentials (default ∅ init)) w)
    as [[res|e1] w1] eqn:Hf; [|intros [= <- <-]; auto].
  destruct (Z.eqb_spec (status res) 401) as [Hs|Hs]; [|discriminate].
  destruct (refreshSession _ w1) as [[[|]|e2] w2] eqn:Hr.
  - intros Hf3. right; left. exists res, w1, w2. auto.
  - discriminate.
  - intros [= <- <-].
    destruct (refreshSession_cases _ _ _ _ Hr)
      as [(e' & [= <-] & -> & Hc)|[([=] & _)|(? & ? & _ & _ & _ & _ & [=])]].
    right; right. exists res. repeat split; try assumption.
    eapply getCookie_throws_only_URIError, Hc.
Qed.

(** ** The cookie reader on the example jars *)

Lemma getCSRFToken_malformed w :
  cookie w = malformed_jar -> getCSRFToken w = (Throw URIError, w).
Proof.
  intros Hj. unfold getCSRFToken. rewrite getCookie_run, Hj. reflexivity.
Qed.

(** C8: the cookie read throws on a malformed cookie string.  With the
    header [authgate_csrf=%] the selected value is not valid
    percent-encoding, [decodeURIComponent] throws [URIError], and
    [getCookie] (so [getCSRFToken]) lets it escape instead of reporting
    absence. *)
Theorem getCookie_throws_on_malformed_value srv :
  Decode (lit "%") = None
  /\ getCookie (lit "authgate_csrf") (browser malformed_jar srv)
     = (Throw URIError, browser malformed_jar srv)
  /\ getCSRFToken (browser malformed_jar srv)
     = (Throw URIError, browser malformed_jar srv).
Proof.
  repeat split; try reflexivity; apply getCSRFToken_malformed; reflexivity.
Qed.

(** What does hold for every cookie string: [getCookie] returns or throws
    [URIError], it throws exactly when the selected entry's value does not
    decode, and it reports absence exactly when no entry starts with
    [name=]. *)
Lemma getCookie_outcomes name w :
  (exists v, getCookie name w = (Normal v, w))
  \/ (getCookie name w = (Throw URIError, w)
      /\ exists m, cookie_entry name (cookie w) = Some m
           /\ Decode (ToString (split m (lit "=") !! 1%nat)) = None).
Proof.
  rewrite getCookie_run.
  destruct (cookie_entry name (cookie w)) as [[|c m]|] eqn:Hm; eauto.
  destruct (Decode _) eqn:Hd; eauto 10.
Qed.

Lemma cookie_entry_startsWith name jar m :
  cookie_entry name jar = Some m -> startsWith m (name ++ lit "=") = true.
Proof. unfold cookie_entry. intros H. apply find_some in H as [_ H]. exact H. Qed.

Lemma getCookie_absent_iff name w :
  getCookie name w = (Normal None, w) <-> cookie_entry name (cookie w) = None.
Proof.
  rewrite getCookie_run. split.
  - destruct (cookie_entry name (cookie w)) as [[|c m]|] eqn:Hm; try reflexivity.
    + apply cookie_entry_startsWith in Hm.
      change (lit "=") with [61] in Hm. destruct name; discriminate.
    + destruct (Decode _); discriminate.
  - intros ->. reflexivity.
Qed.

(** C7: [getCSRFToken] does not return the URL-decoded value of the entry
    when that value holds a [=].  With the header [authgate_csrf=dG9rZW4=]
    the entry's value [dG9rZW4=] decodes to itself, but [match.split("=")[1]]
    keeps only what lies before the second [=] and the token comes back as
    [dG9rZW4]. *)
Theorem getCSRFToken_truncates_at_equals srv :
  cookie_entry (lit "authgate_csrf") padded_jar = Some (lit "authgate_csrf=dG9rZW4=")
  /\ Decode (lit "dG9rZW4=") = Some (lit "dG9rZW4=")
  /\ getCSRFToken (browser padded_jar srv)
     = (Normal (Some (lit "dG9rZW4")), browser padded_jar srv)
  /\ lit "dG9rZW4" <> lit "dG9rZW4=".
Proof.
  repeat split; try reflexivity. discriminate.
Qed.

Lemma lit_name_free c :
  c = 59 \/ c = 61 -> c ∉ lit "authgate_csrf".
Proof.
  intros [-> | ->]; apply (bool_decide_unpack _); vm_compute; exact I.
Qed.

(** The value of an entry [authgate_csrf=v] without a further [=]. *)
Lemma split_csrf_entry v :
  61 ∉ v -> split (lit "authgate_csrf=" ++ v) (lit "=") !! 1%nat = Some v.
Proof.
  intros Hv.
  change (lit "authgate_csrf=" ++ v) with (lit "authgate_csrf" ++ [61] ++ v).
  change (lit "=") with [61].
  rewrite split_cons by (apply lit_name_free; auto).
  rewrite split_single by exact Hv. reflexivity.
Qed.

(** The part of C7 that the code meets: the first entry that starts with
    [authgate_csrf=] is the one read, and when its value holds no [=] and
    is valid percent-encoding the decoded value is returned. *)
Lemma getCSRFToken_first_entry before after v d w :
  Forall (fun x => 59 ∉ x) (before ++ (lit "authgate_csrf=" ++ v) :: after) ->
  Forall (fun x => startsWith x (lit "authgate_csrf=") = false) before ->
  61 ∉ v -> Decode v = Some d ->
  cookie w = join (lit "; ") (before ++ (lit "authgate_csrf=" ++ v) :: after) ->
  getCSRFToken w = (Normal (Some d), w).
Proof.
  intros Hsemi Hb Hv Hd Hj. unfold getCSRFToken. rewrite getCookie_run, Hj.
  rewrite (cookie_entry_join _ before (lit "authgate_csrf=" ++ v) after);
    [|exact Hsemi|exact Hb|apply startsWith_app].
  change (lit "authgate_csrf=" ++ v) with (97 :: (lit "uthgate_csrf=" ++ v)).
  cbv beta iota.
  change (97 :: (lit "uthgate_csrf=" ++ v)) with (lit "authgate_csrf=" ++ v).
  rewrite split_csrf_entry by exact Hv. simpl. rewrite Hd.
  reflexivity.
Qed.

(** The round trip of C7: a token written as
    [authgate_csrf=encodeURIComponent(t)], among any other cookies, is read
    back as [t]. *)
Lemma getCSRFToken_roundtrip t e before after w :
  Forall code_unit t -> Encode t = Some e ->
  Forall (fun x => 59 ∉ x) (before ++ after) ->
  Forall (fun x => startsWith x (lit "authgate_csrf=") = false) before ->
  cookie w = join (lit "; ") (before ++ (lit "authgate_csrf=" ++ e) :: after) ->
  getCSRFToken w = (Normal (Some t), w).
Proof.
  intros Hw He Hsemi Hb Hj.
  pose proof (Encode_safe _ _ Hw He) as Hs.
  apply (getCSRFToken_first_entry before after e t); try assumption.
  - apply Forall_app in Hsemi as [H1 H2]. apply Forall_app. split; [exact H1|].
    apply Forall_cons. split; [|exact H2].
    intros Hin. apply elem_of_app in Hin as [Hin|Hin].
    + revert Hin. apply (bool_decide_unpack _). vm_compute. exact I.
    + revert Hin. apply (uri_safe_plain _ _ Hs). auto.
  - apply (uri_safe_plain _ _ Hs). auto.
  - apply (Encode_Decode _ _ Hw He).
Qed.

Lemma getCSRFToken_roundtrip_example srv :
  getCSRFToken (browser (lit "theme=dark; authgate_csrf=a%20b%3D%3B%25; lang=en") srv)
  = (Normal (Some (lit "a b=;%")),
     browser (lit "theme=dark; authgate_csrf=a%20b%3D%3B%25; lang=en") srv).
Proof.
  apply (getCSRFToken_roundtrip (lit "a b=;%") (lit "a%20b%3D%3B%25")
           [lit "theme=dark"] [lit "lang=en"]).
  - apply (bool_decide_unpack _). vm_compute. exact I.
  - reflexivity.
  - apply (bool_decide_unpack _). vm_compute. exact I.
  - repeat constructor.
  - reflexivity.
Qed.

(** ** [refreshSession] *)

(** C6: [refreshSession] throws when the CSRF cookie does not decode.  The
    cookie is read before the [try] block, so with the header
    [authgate_csrf=%] the [URIError] of the read leaves [refreshSession]
    instead of becoming [false]; no network call is made. *)
Theorem refreshSession_throws_on_malformed_csrf a srv :
  refreshSession a (browser malformed_jar srv)
  = (Throw URIError, browser malformed_jar srv).
Proof.
  rewrite refreshSession_run, getCSRFToken_malformed by reflexivity. reflexivity.
Qed.

(** The rest of C6 holds whenever the cookie read returns: [refreshSession]
    returns a boolean, makes no call without a token and at most the one
    refresh call otherwise, and answers [true] exactly when that call
    completed with a status from 200 to 299. *)
Lemma refreshSession_readable_cookie a w csrf :
  getCSRFToken w = (Normal csrf, w) ->
  exists b w',
    refreshSession a w = (Normal b, w')
    /\ (truthy csrf = false -> b = false /\ w' = w)
    /\ (issued w w' = []
        \/ exists enc tok, csrf = Some tok
             /\ Encode (default (lit "app") a) = Some enc
             /\ issued w w' = [refresh_request enc tok])
    /\ (b = true <->
        exists enc tok res jar,
          csrf = Some tok /\ tok <> []
          /\ Encode (default (lit "app") a) = Some enc
          /\ net w (calls w) (cookie w) (refresh_request enc tok) = (Normal res, jar)
          /\ ok res = true).
Proof.
  intros Hc. rewrite refreshSession_run, Hc.
  destruct (truthy csrf) eqn:Ht.
  - destruct (truthy_Some _ Ht) as (tok & -> & Hne).
    destruct (Encode _) as [enc|] eqn:He.
    + cbv zeta. simpl default.
      destruct (net w (calls w) (cookie w) (refresh_request enc tok))
        as [[res|e] jar] eqn:Hn; simpl; eexists _, _; (split; [reflexivity|]);
        (split; [congruence|]);
        (split; [right; exists enc, tok; repeat split;
                 apply issued_app; reflexivity|]).
      * split; [intros Hok; exists enc, tok, res, jar; auto|].
        intros (enc' & tok' & res' & jar' & [= <-] & _ & [= <-] & Hn' & Hok).
        rewrite Hn in Hn'. injection Hn' as <- <-. exact Hok.
      * split; [discriminate|].
        intros (enc' & tok' & res' & jar' & [= <-] & _ & [= <-] & Hn' & _).
        rewrite Hn in Hn'. discriminate.
    + eexists _, _. split; [reflexivity|]. split; [congruence|].
      split; [left; apply issued_refl|]. split; [discriminate|].
      intros (enc' & tok' & res' & jar' & _ & _ & [=] & _).
  - eexists _, _. split; [reflexivity|]. split; [auto|].
    split; [left; apply issued_refl|]. split; [discriminate|].
    intros (enc' & tok' & res' & jar' & -> & Hne & _).
    destruct tok'; [contradiction|discriminate].
Qed.

(** ** [logout] *)

(** C4: [logout] raises an exception when the CSRF cookie does not decode.
    The cookie is read before the [try] block, so with the header
    [authgate_csrf=%] the [URIError] of the read leaves [logout] instead of
    becoming a [LogoutResult]; no network call is made. *)
Theorem logout_throws_on_malformed_csrf opts srv :
  logout opts (browser malformed_jar srv)
  = (Throw URIError, browser malformed_jar srv).
Proof.
  rewrite logout_run, getCSRFToken_malformed by reflexivity. reflexivity.
Qed.

Lemma ok_unauthorized res : status res = 401 \/ status res = 403 -> ok res = false.
Proof. unfold ok, in_range. intros [-> | ->]; reflexivity. Qed.

(** The rest of C4 holds whenever the cookie read returns: without a token
    [logout] answers [missing_csrf] and leaves the world alone; with one it
    makes exactly the logout call and answers [request_failed] when the
    transport rejects it, [unauthorized] exactly on 401 and 403,
    [request_failed] on any other status outside 200 to 299, and [ok] on a
    status from 200 to 299, unless a non-empty [redirectTo] is rejected by
    the page's URL parser: then the assignment to [location.href] throws a
    [SyntaxError] and [logout] rejects with it. *)
Lemma logout_readable_cookie opts w csrf :
  getCSRFToken w = (Normal csrf, w) ->
  (truthy csrf = false ->
   logout opts w = (Normal (LogoutFailed missing_csrf), w))
  /\ (forall tok, csrf = Some tok -> tok <> [] ->
      exists c w',
        logout opts w = (c, w')
        /\ issued w w' = [logout_request tok]
        /\ match (net w (calls w) (cookie w) (logout_request tok)).1 with
           | Throw _ => c = Normal (LogoutFailed request_failed)
           | Normal res =>
               (ok res = true ->
                if truthy (opts ≫= redirectTo)
                   && negb (url_parses w (default [] (opts ≫= redirectTo)))
                then c = Throw (DOMException "SyntaxError")
                else c = Normal LogoutOk)
               /\ (status res = 401 \/ status res = 403 ->
                   c = Normal (LogoutFailed unauthorized))
               /\ (ok res = false -> status res <> 401 -> status res <> 403 ->
                   c = Normal (LogoutFailed request_failed))
               /\ (c = Normal (LogoutFailed unauthorized) ->
                   status res = 401 \/ status res = 403)
           end).
Proof.
  intros Hc. rewrite logout_run, Hc. split.
  - intros ->. reflexivity.
  - intros tok -> Hne. destruct tok as [|c0 tok]; [contradiction|].
    cbv zeta. simpl truthy. simpl default. cbv iota.
    destruct (net w (calls w) (cookie w) (logout_request (c0 :: tok)))
      as [[res|e] jar]; simpl fst; simpl snd; cbv iota.
    + destruct (ok res) eqn:Hok.
      * destruct (truthy (opts ≫= redirectTo));
          [destruct (url_parses w (default [] (opts ≫= redirectTo)))|];
          eexists _, _; (split; [reflexivity|]);
          (split; [apply issued_app; reflexivity|]);
          (split; [reflexivity|]);
          (split; [intros H; rewrite (ok_unauthorized _ H) in Hok; discriminate|]);
          (split; [discriminate|discriminate]).
      * eexists _, _. split; [reflexivity|].
        split; [apply issued_app; reflexivity|].
        split; [discriminate|].
        destruct (Z.eqb_spec (status res) 401), (Z.eqb_spec (status res) 403);
          simpl; repeat split; auto; try discriminate; try contradiction;
          intros; lia.
    + eexists _, _. split; [reflexivity|].
      split; [apply issued_app; reflexivity|reflexivity].
Qed.

(** C3: [authFetch] throws for a failure that is not a transport failure.
    When the first response is a 401 and the CSRF cookie does not decode
    (header [authgate_csrf=%]), the first [fetch] has returned normally, no
    retry is made, and the [URIError] of the cookie read inside
    [refreshSession] leaves [authFetch] instead of the original 401 being
    returned. *)
Theorem authFetch_throws_on_malformed_csrf input init opts :
  let w := browser malformed_jar (scripted [Normal (resp 401)]) in
  let w1 := after_call w (forced input init) malformed_jar in
  fetch input (withCredentials (default ∅ init)) w = (Normal (resp 401), w1)
  /\ authFetch input init opts w = (Throw URIError, w1)
  /\ issued w w1 = [forced input init].
Proof.
  intros w w1.
  assert (Hf : fetch input (withCredentials (default ∅ init)) w
               = (Normal (resp 401), w1)) by reflexivity.
  split; [exact Hf|]. split; [|apply issued_app; reflexivity].
  rewrite authFetch_run, Hf.
  change (status (resp 401) =? 401) with true. cbv iota.
  rewrite refreshSession_run, getCSRFToken_malformed by reflexivity.
  reflexivity.
Qed.

(** ** [logout] and navigation *)




(** A non-empty [redirectTo] that the page's URL parser rejects: the
    logout request succeeds, the assignment to [location.href] throws, and
    [logout] rejects without a navigation. *)
Lemma logout_unparsable_redirect_rejects :
  let opts := Some (mkLogoutOpts (Some (lit "http://"))) in
  let w' := after_call world_ok (logout_request (lit "abc")) (lit "authgate_csrf=abc") in
  url_parses world_ok (lit "http://") = false
  /\ logout opts world_ok = (Throw (DOMException "SyntaxError"), w')
  /\ navs w' = navs world_ok.
Proof. vm_compute. repeat split. Qed.

(** ** [getCurrentUser] *)

(** C9: [getCurrentUser] never throws, and returns [null] whenever the
    underlying [authFetch] call throws, returns a non-success status, or
    returns a success status whose body does not parse; a value other than
    [null] comes only from a success status with a parseable body. *)
Theorem getCurrentUser_absorbs_failures opts w :
  (exists v w', getCurrentUser opts w = (Normal v, w'))
  /\ (forall e w1, user_lookup opts w = (Throw e, w1) ->
        getCurrentUser opts w = (Normal JNull, w1))
  /\ (forall res w1, user_lookup opts w = (Normal res, w1) -> ok res = false ->
        getCurrentUser opts w = (Normal JNull, w1))
  /\ (forall res w1 e, user_lookup opts w = (Normal res, w1) -> ok res = true ->
        json res = Throw e ->
        getCurrentUser opts w = (Normal JNull, w1))
  /\ (forall v w', getCurrentUser opts w = (Normal v, w') -> v <> JNull ->
        exists res, user_lookup opts w = (Normal res, w')
          /\ ok res = true /\ json res = Normal v).
Proof.
  rewrite getCurrentUser_run.
  destruct (user_lookup opts w) as [[res|e] w1] eqn:Hu.
  - destruct (ok res) eqn:Hok; [destruct (json res) as [v|e] eqn:Hj|].
    + repeat split; eauto; try congruence.
      intros v' w' [= <- <-] _. eauto.
    + repeat split; eauto; try congruence.
    + repeat split; eauto; try congruence.
  - repeat split; eauto; try congruence.
Qed.

(** C10: [getCurrentUser] returns whatever the body of a success response
    parses to, without looking at it: any JSON value, with or without the
    fields [id], [email] and [username], object or not; a body [null] gives
    [null], the value every failure gives. *)
Theorem getCurrentUser_unvalidated opts w res w1 v :
  user_lookup opts w = (Normal res, w1) ->
  ok res = true ->
  json res = Normal v ->
  getCurrentUser opts w = (Normal v, w1)
  /\ (v = JNull ->
      forall opts2 w2 r2 w2',
        user_lookup opts2 w2 = (r2, w2') ->
        match r2 with
        | Throw _ => True
        | Normal res2 => ok res2 = false \/ exists e, json res2 = Throw e
        end ->
        (getCurrentUser opts2 w2).1 = (getCurrentUser opts w).1).
Proof.
  intros Hu Hok Hj. rewrite !getCurrentUser_run, Hu, Hok, Hj.
  split; [reflexivity|]. intros -> opts2 w2 r2 w2' Hu2 Hfail.
  rewrite getCurrentUser_run, Hu2. destruct r2 as [res2|e]; [|reflexivity].
  destruct Hfail as [-> | [e ->]]; [reflexivity|].
  destruct (ok res2); reflexivity.
Qed.

Lemma getCurrentUser_unvalidated_witness :
  CurrentUser (JNum 7) = false
  /\ (getCurrentUser None (world_user (JNum 7))).1 = Normal (JNum 7)
  /\ (getCurrentUser None (world_user JNull)).1
     = (getCurrentUser None world_no_cookie).1.
Proof.
  split; [reflexivity|]. split.
  - refine (f_equal fst (proj1 (getCurrentUser_unvalidated None
              (world_user (JNum 7)) (mkResponse 200 (Normal (JNum 7)))
              (user_lookup None (world_user (JNum 7))).2 (JNum 7) _ _ _)));
      vm_compute; reflexivity.
  - symmetry.
    refine (proj2 (getCurrentUser_unvalidated None (world_user JNull)
                     (mkResponse 200 (Normal JNull))
                     (user_lookup None (world_user JNull)).2 JNull _ _ _)
              eq_refl None world_no_cookie
              (user_lookup None world_no_cookie).1
              (user_lookup None world_no_cookie).2 _ _);
      vm_compute; try reflexivity. left; reflexivity.
Defined.

(** * Further properties of the SDK *)

(** ** [getCookie] *)

Lemma getCookie_selected name w m :
  cookie_entry name (cookie w) = Some m ->
  getCookie name w =
    (match Decode (ToString (split m (lit "=") !! 1%nat)) with
     | Some v => Normal (Some v)
     | None => Throw URIError
     end, w).
Proof.
  intros Hm. rewrite getCookie_run, Hm.
  destruct m as [|c m]; [|reflexivity].
  apply cookie_entry_startsWith in Hm. change (lit "=") with [61] in Hm.
  destruct name; discriminate.
Qed.

Lemma split_name_value name v tail :
  61 ∉ name -> 61 ∉ v -> tail = [] \/ (exists v2, tail = 61 :: v2) ->
  split (name ++ lit "=" ++ v ++ tail) (lit "=") !! 1%nat = Some v.
Proof.
  intros Hn Hv Ht. change (lit "=") with [61].
  rewrite split_cons by exact Hn.
  destruct Ht as [-> | [v2 ->]].
  - rewrite app_nil_r, split_single by exact Hv. reflexivity.
  - change (v ++ 61 :: v2) with (v ++ [61] ++ v2).
    rewrite split_cons by exact Hv. reflexivity.
Qed.

Lemma getCookie_entry_value name before after v tail w :
  61 ∉ name -> 61 ∉ v -> tail = [] \/ (exists v2, tail = 61 :: v2) ->
  Forall (fun x => 59 ∉ x) (before ++ (name ++ lit "=" ++ v ++ tail) :: after) ->
  Forall (fun x => startsWith x (name ++ lit "=") = false) before ->
  cookie w = join (lit "; ") (before ++ (name ++ lit "=" ++ v ++ tail) :: after) ->
  getCookie name w =
    (match Decode v with
     | Some d => Normal (Some d)
     | None => Throw URIError
     end, w).
Proof.
  intros Hn Hv Ht Hsemi Hb Hj.
  rewrite (getCookie_selected name w (name ++ lit "=" ++ v ++ tail)).
  - rewrite split_name_value by assumption. reflexivity.
  - rewrite Hj. apply cookie_entry_join; [exact Hsemi|exact Hb|].
    rewrite app_assoc. apply startsWith_app.
Qed.

(** Among the cookies of a header the first one named [name] is the one
    read, whatever follows it, later cookies of the same name included; its
    value, when it holds no [=] and is valid percent-encoding, comes back
    decoded. *)
Theorem getCookie_reads_first_entry name before after v d w :
  61 ∉ name -> 61 ∉ v ->
  Forall (fun x => 59 ∉ x) (before ++ (name ++ lit "=" ++ v) :: after) ->
  Forall (fun x => startsWith x (name ++ lit "=") = false) before ->
  Decode v = Some d ->
  cookie w = join (lit "; ") (before ++ (name ++ lit "=" ++ v) :: after) ->
  getCookie name w = (Normal (Some d), w).
Proof.
  intros Hn Hv Hsemi Hb Hd Hj.
  rewrite (getCookie_entry_value name before after v [] w);
    rewrite ?app_nil_r; auto.
  rewrite Hd. reflexivity.
Qed.

Lemma getCookie_reads_first_entry_witness :
  getCookie (lit "sid") (browser two_sids (scripted []))
  = (Normal (Some (lit "abc def")), browser two_sids (scripted [])).
Proof.
  apply (getCookie_reads_first_entry (lit "sid") [lit "theme=dark"]
           [lit "sid=zzz"] (lit "abc%20def") (lit "abc def"));
    try reflexivity;
    try (apply (bool_decide_unpack _); vm_compute; exact I).
Defined.

(** A value that holds a [=] is cut there: only the text between the first
    and the second [=] of the entry is decoded, and what follows is never
    looked at, not even when it is malformed. *)
Theorem getCookie_cuts_value_at_equals name before after v1 v2 d w :
  61 ∉ name -> 61 ∉ v1 ->
  Forall (fun x => 59 ∉ x)
    (before ++ (name ++ lit "=" ++ v1 ++ lit "=" ++ v2) :: after) ->
  Forall (fun x => startsWith x (name ++ lit "=") = false) before ->
  Decode v1 = Some d ->
  cookie w = join (lit "; ")
               (before ++ (name ++ lit "=" ++ v1 ++ lit "=" ++ v2) :: after) ->
  getCookie name w = (Normal (Some d), w).
Proof.
  intros Hn Hv Hsemi Hb Hd Hj.
  rewrite (getCookie_entry_value name before after v1 (lit "=" ++ v2) w);
    auto.
  - rewrite Hd. reflexivity.
  - right. exists v2. reflexivity.
Qed.

Lemma getCookie_cuts_value_at_equals_witness :
  Decode (lit "abc=%") = None
  /\ getCookie (lit "sid") (browser cut_sid (scripted []))
     = (Normal (Some (lit "abc")), browser cut_sid (scripted [])).
Proof.
  split; [reflexivity|].
  apply (getCookie_cuts_value_at_equals (lit "sid") [] [lit "theme=dark"]
           (lit "abc") (lit "%") (lit "abc"));
    try reflexivity;
    try (apply (bool_decide_unpack _); vm_compute; exact I);
    try constructor.
Defined.

(** The three outcomes of [getCookie] and when each happens: [null] exactly
    when no entry of the header starts with [name=]; otherwise the text
    between the first and the second [=] of the first such entry decides,
    a string when it decodes and a [URIError], the only exception, when it
    does not.  The world is left as it was. *)
Theorem getCookie_outcome_conditions name w :
  (getCookie name w).2 = w
  /\ ((getCookie name w).1 = Normal None <->
      Forall (fun c => startsWith c (name ++ lit "=") = false)
        (split (cookie w) (lit "; ")))
  /\ (forall v,
        (getCookie name w).1 = Normal (Some v) <->
        exists m, cookie_entry name (cookie w) = Some m
          /\ Decode (ToString (split m (lit "=") !! 1%nat)) = Some v)
  /\ (forall e,
        (getCookie name w).1 = Throw e <->
        e = URIError
        /\ exists m, cookie_entry name (cookie w) = Some m
             /\ Decode (ToString (split m (lit "=") !! 1%nat)) = None).
Proof.
  split; [apply getCookie_frame|].
  destruct (cookie_entry name (cookie w)) as [m|] eqn:Hm.
  - rewrite (getCookie_selected _ _ _ Hm). simpl.
    split; [|split].
    + split.
      * destruct (Decode _); discriminate.
      * intros Hall. rewrite (cookie_entry_absent _ _ Hall) in Hm. discriminate.
    + intros v. split.
      * destruct (Decode _) as [d|] eqn:Hd; [|discriminate].
        intros [= <-]. eauto.
      * intros (m' & [= <-] & ->). reflexivity.
    + intros e. split.
      * destruct (Decode _) as [d|] eqn:Hd; [discriminate|].
        intros [= <-]. eauto.
      * intros (-> & m' & [= <-] & ->). reflexivity.
  - rewrite getCookie_run, Hm. simpl.
    split; [|split].
    + split; [|reflexivity]. intros _.
      unfold cookie_entry in Hm. apply Forall_forall. intros c Hc.
      apply (find_none _ _ Hm). apply list_elem_of_In, Hc.
    + intros v. split; [discriminate|]. intros (m & [=] & _).
    + intros e. split; [discriminate|]. intros (_ & m & [=] & _).
Qed.

(** ** The CSRF token on its way from the cookie to the request *)

Lemma uri_safe_no_separator e c :
  Forall uri_safe e -> c ∈ [38; 61; 35; 63; 47; 43; 32; 59] -> c ∉ e.
Proof.
  intros He Hc Hin. rewrite Forall_forall in He.
  assert (Hu : unescaped c = false).
  { rewrite !elem_of_cons, elem_of_nil in Hc.
    destruct Hc as [->|[->|[->|[->|[->|[->|[->|[->|[]]]]]]]]]; reflexivity. }
  destruct (He _ Hin) as [Hu'| ->]; [congruence|].
  rewrite !elem_of_cons, elem_of_nil in Hc.
  destruct Hc as [?|[?|[?|[?|[?|[?|[?|[?|[]]]]]]]]]; discriminate.
Qed.

Lemma logout_issued opts w out w' :
  logout opts w = (out, w') ->
  w' = w
  \/ exists tok, getCSRFToken w = (Normal (Some tok), w) /\ tok <> []
       /\ calls w' = calls w ++ [logout_request tok].
Proof.
  rewrite logout_run.
  destruct (getCSRFToken w) as [[csrf|e] w0] eqn:Hc;
    pose proof (getCSRFToken_inv _ _ _ Hc) as ->;
    [|intros [= _ <-]; auto].
  destruct (truthy csrf) eqn:Ht; [|intros [= _ <-]; auto].
  destruct (truthy_Some _ Ht) as (tok & -> & Hne).
  intros H. right. exists tok. repeat split; try assumption.
  cbv zeta in H. simpl default in H.
  destruct (net w (calls w) (cookie w) (logout_request tok)) as [[res|e] jar];
    cbn [fst snd] in H.
  - destruct (ok res);
      [destruct (truthy (opts ≫= redirectTo));
       [destruct (url_parses w (default [] (opts ≫= redirectTo)))|]|];
      injection H as _ <-; reflexivity.
  - injection H as _ <-. reflexivity.
Qed.

Lemma refreshSession_issued a w c w' :
  refreshSession a w = (c, w') ->
  w' = w
  \/ exists enc tok, getCSRFToken w = (Normal (Some tok), w) /\ tok <> []
       /\ Encode (default (lit "app") a) = Some enc
       /\ calls w' = calls w ++ [refresh_request enc tok]
       /\ href w' = href w /\ navs w' = navs w.
Proof.
  intros H.
  destruct (refreshSession_cases _ _ _ _ H)
    as [(e & _ & -> & _)|[(_ & -> & _)|(tok & enc & Hc & Hne & He & Hw & _)]];
    auto.
  right. exists enc, tok. cbv zeta in Hw. subst w'. auto 10.
Qed.

Lemma logout_calls_with_token opts w tok :
  getCSRFToken w = (Normal (Some tok), w) -> tok <> [] ->
  calls (logout opts w).2 = calls w ++ [logout_request tok].
Proof.
  intros Hc Hne. rewrite logout_run, Hc.
  destruct tok as [|c tok]; [contradiction|]. cbv zeta. simpl truthy. cbv iota.
  simpl default.
  destruct (net w (calls w) (cookie w) (logout_request (c :: tok)))
    as [[res|e] jar]; cbn [fst snd]; [|reflexivity].
  destruct (ok res);
    [destruct (truthy (opts ≫= redirectTo));
     [destruct (url_parses w (default [] (opts ≫= redirectTo)))|]|];
    reflexivity.
Qed.

Lemma refreshSession_calls_with_token a w tok enc :
  getCSRFToken w = (Normal (Some tok), w) -> tok <> [] ->
  Encode (default (lit "app") a) = Some enc ->
  calls (refreshSession a w).2 = calls w ++ [refresh_request enc tok].
Proof.
  intros Hc Hne He. rewrite refreshSession_run, Hc, He.
  destruct tok as [|c tok]; [contradiction|]. reflexivity.
Qed.

(** A non-empty token stored as [authgate_csrf=encodeURIComponent(t)],
    among other cookies that hold no [;] and of which none before it is
    named [authgate_csrf], is read back as [t].  [logout] then sends exactly
    one request; [refreshSession] sends exactly one when the audience can be
    URL-encoded and none when it cannot; and the [X-CSRF-Token] header of
    each request sent is [t] itself, decoded. *)
Theorem csrf_token_reaches_header t e before after opts a w :
  Forall code_unit t -> t <> [] -> Encode t = Some e ->
  Forall (fun x => 59 ∉ x) (before ++ after) ->
  Forall (fun x => startsWith x (lit "authgate_csrf=") = false) before ->
  cookie w = join (lit "; ") (before ++ (lit "authgate_csrf=" ++ e) :: after) ->
  getCSRFToken w = (Normal (Some t), w)
  /\ issued w (logout opts w).2 = [logout_request t]
  /\ req_init (logout_request t) !! "headers"%string
     = Some (JObj [(lit "X-CSRF-Token", JStr t)])
  /\ (forall enc,
        Encode (default (lit "app") a) = Some enc ->
        issued w (refreshSession a w).2 = [refresh_request enc t]
        /\ req_init (refresh_request enc t) !! "headers"%string
           = Some (JObj [(lit "X-CSRF-Token", JStr t)]))
  /\ (Encode (default (lit "app") a) = None ->
      issued w (refreshSession a w).2 = []).
Proof.
  intros Hw Hne He Hsemi Hb Hj.
  pose proof (getCSRFToken_roundtrip _ _ _ _ _ Hw He Hsemi Hb Hj) as Hc.
  split; [exact Hc|]. split; [|split; [reflexivity|split]].
  - apply issued_app, logout_calls_with_token; assumption.
  - intros enc Ha. split; [|reflexivity].
    apply issued_app, refreshSession_calls_with_token; assumption.
  - intros Ha. rewrite refreshSession_run, Hc, Ha.
    destruct (truthy (Some t)); apply issued_refl.
Qed.

Lemma csrf_token_reaches_header_witness :
  getCSRFToken world_encoded = (Normal (Some (lit "a b=;%")), world_encoded)
  /\ issued world_encoded (logout None world_encoded).2
     = [logout_request (lit "a b=;%")].
Proof.
  refine (let H := csrf_token_reaches_header (lit "a b=;%") (lit "a%20b%3D%3B%25")
                     [lit "theme=dark"] [lit "lang=en"] None None
                     world_encoded _ _ _ _ _ _ in
          conj (proj1 H) (proj1 (proj2 H)));
    try reflexivity; try discriminate;
    apply (bool_decide_unpack _); vm_compute; exact I.
Defined.



(** ** [logout] and [refreshSession] with a readable cookie *)

Lemma logout_readable_cookie_witness :
  exists w',
    logout None world_forbidden = (Normal (LogoutFailed unauthorized), w')
    /\ issued world_forbidden w' = [logout_request (lit "abc")].
Proof.
  assert (Hc : getCSRFToken world_forbidden
               = (Normal (Some (lit "abc")), world_forbidden)) by reflexivity.
  destruct (proj2 (logout_readable_cookie None world_forbidden _ Hc)
              (lit "abc") eq_refl ltac:(discriminate))
    as (out & w' & Hl & Hi & Hout).
  exists w'. split; [|exact Hi].
  rewrite Hl. f_equal.
  apply (proj1 (proj2 Hout)). right. reflexivity.
Defined.

Lemma refreshSession_readable_cookie_witness :
  exists b w',
    refreshSession (Some (lit "admin")) world_ok = (Normal b, w')
    /\ (issued world_ok w' = []
        \/ exists enc tok, Some (lit "abc") = Some tok
             /\ Encode (default (lit "app") (Some (lit "admin"))) = Some enc
             /\ issued world_ok w' = [refresh_request enc tok]).
Proof.
  assert (Hc : getCSRFToken world_ok = (Normal (Some (lit "abc")), world_ok))
    by reflexivity.
  destruct (refreshSession_readable_cookie (Some (lit "admin")) world_ok _ Hc)
    as (b & w' & Hr & _ & Hi & _).
  exists b, w'. split; [exact Hr|exact Hi].
Defined.

(** An audience that cannot be URL-encoded (it holds an unpaired surrogate)
    makes [refreshSession] send no request and leave the world as it was.
    Whenever the CSRF cookie read returns, the answer is [false]: the
    [URIError] of [encodeURIComponent] is raised inside the [try] block and
    caught.  When the cookie read itself throws, that exception leaves
    [refreshSession], as it does for any audience. *)
Theorem refreshSession_unencodable_audience a w :
  Encode (default (lit "app") a) = None ->
  (refreshSession a w).2 = w
  /\ (forall csrf, (getCSRFToken w).1 = Normal csrf ->
        (refreshSession a w).1 = Normal false)
  /\ (forall e, (getCSRFToken w).1 = Throw e ->
        (refreshSession a w).1 = Throw e).
Proof.
  intros He. rewrite refreshSession_run, He.
  destruct (getCSRFToken w) as [[csrf|e] w0]; simpl.
  - destruct (truthy csrf); repeat split; try reflexivity; discriminate.
  - repeat split; try discriminate. intros e' [= <-]. reflexivity.
Qed.

Lemma refreshSession_unencodable_audience_witness :
  refreshSession (Some lone_surrogate) world_ok = (Normal false, world_ok).
Proof.
  destruct (refreshSession_unencodable_audience (Some lone_surrogate) world_ok
              eq_refl) as (Hw & Hfalse & _).
  specialize (Hfalse (Some (lit "abc")) eq_refl).
  destruct (refreshSession (Some lone_surrogate) world_ok) as [c w'].
  simpl in Hw, Hfalse. subst. reflexivity.
Defined.

(** The URL of the refresh request is [/auth/refresh?audience=] followed by
    text that decodes back to the audience and holds none of
    [& = # ? / + ;] or a space: whatever the audience is, the query string
    has that one parameter. *)
Theorem refresh_url_encodes_audience a w rq :
  Forall code_unit (default (lit "app") a) ->
  rq ∈ issued w (refreshSession a w).2 ->
  exists enc,
    req_input rq = InputString (lit "/auth/refresh?audience=" ++ enc)
    /\ Decode enc = Some (default (lit "app") a)
    /\ forall c, c ∈ [38; 61; 35; 63; 47; 43; 32; 59] -> c ∉ enc.
Proof.
  intros Hw Hin.
  destruct (refreshSession a w) as [c w'] eqn:Hr.
  destruct (refreshSession_issued _ _ _ _ Hr)
    as [->|(enc & tok & _ & _ & He & Hc & _)]; simpl in Hin.
  - rewrite issued_refl in Hin. apply elem_of_nil in Hin. contradiction.
  - rewrite (issued_app _ _ _ Hc) in Hin. apply list_elem_of_singleton in Hin.
    subst rq. exists enc. split; [reflexivity|]. split.
    + apply (Encode_Decode _ _ Hw He).
    + intros ch Hch. apply uri_safe_no_separator; [|exact Hch].
      apply (Encode_safe _ _ Hw He).
Qed.

Lemma refresh_url_encodes_audience_witness :
  exists enc,
    req_input (refresh_request (lit "app%26admin%3D1%23x") (lit "abc"))
    = InputString (lit "/auth/refresh?audience=" ++ enc)
    /\ Decode enc = Some noisy_audience
    /\ forall c, c ∈ [38; 61; 35; 63; 47; 43; 32; 59] -> c ∉ enc.
Proof.
  apply (refresh_url_encodes_audience (Some noisy_audience) world_ok).
  - apply (bool_decide_unpack _). vm_compute. exact I.
  - vm_compute. left.
Defined.

(** Every request [logout] or [refreshSession] sends is a [POST] without a
    body whose [X-CSRF-Token] header is the non-empty token read from the
    cookie when the function was entered. *)
Theorem csrf_requests_shape opts a w rq :
  rq ∈ issued w (logout opts w).2 \/ rq ∈ issued w (refreshSession a w).2 ->
  exists tok,
    getCSRFToken w = (Normal (Some tok), w) /\ tok <> []
    /\ req_init rq !! "method"%string = Some (JStr (lit "POST"))
    /\ req_init rq !! "headers"%string
       = Some (JObj [(lit "X-CSRF-Token", JStr tok)])
    /\ req_init rq !! "body"%string = None.
Proof.
  intros [Hin|Hin].
  - destruct (logout opts w) as [out w'] eqn:Hl.
    destruct (logout_issued _ _ _ _ Hl) as [->|(tok & Hc & Hne & Hcalls)];
      simpl in Hin.
    + rewrite issued_refl in Hin. apply elem_of_nil in Hin. contradiction.
    + rewrite (issued_app _ _ _ Hcalls) in Hin.
      apply list_elem_of_singleton in Hin. subst rq. exists tok.
      repeat split; assumption || reflexivity.
  - destruct (refreshSession a w) as [c w'] eqn:Hr.
    destruct (refreshSession_issued _ _ _ _ Hr)
      as [->|(enc & tok & Hc & Hne & _ & Hcalls & _)]; simpl in Hin.
    + rewrite issued_refl in Hin. apply elem_of_nil in Hin. contradiction.
    + rewrite (issued_app _ _ _ Hcalls) in Hin.
      apply list_elem_of_singleton in Hin. subst rq. exists tok.
      repeat split; assumption || reflexivity.
Qed.

Lemma csrf_requests_shape_witness :
  exists tok,
    getCSRFToken world_ok = (Normal (Some tok), world_ok) /\ tok <> []
    /\ req_init (logout_request (lit "abc")) !! "method"%string
       = Some (JStr (lit "POST"))
    /\ req_init (logout_request (lit "abc")) !! "headers"%string
       = Some (JObj [(lit "X-CSRF-Token", JStr tok)])
    /\ req_init (logout_request (lit "abc")) !! "body"%string = None.
Proof.
  apply (csrf_requests_shape None None world_ok). left. vm_compute. left.
Defined.

(** ** [authFetch] and [getCurrentUser]: calls, navigation, credentials *)

Lemma fetch_frame input init w c w1 :
  fetch input init w = (c, w1) -> href w1 = href w /\ navs w1 = navs w.
Proof. rewrite fetch_run. intros [= _ <-]. auto. Qed.

Lemma authFetch_issued input init opts w c w' :
  authFetch input init opts w = (c, w') ->
  let rq := forced input init in
  (calls w' = calls w ++ [rq]
   \/ exists enc tok,
        Encode (default (lit "app") (opts ≫= audience)) = Some enc
        /\ (calls w' = calls w ++ [rq; refresh_request enc tok]
            \/ calls w' = calls w ++ [rq; refresh_request enc tok; rq]))
  /\ href w' = href w /\ navs w' = navs w.
Proof.
  rewrite authFetch_run. intros H rq.
  destruct (fetch input (withCredentials (default ∅ init)) w)
    as [[res|e] w1] eqn:Hf;
    pose proof (fetch_issued _ _ _ _ _ Hf) as Hc1;
    pose proof (fetch_frame _ _ _ _ _ Hf) as [Hh1 Hn1];
    [|injection H as _ <-; auto].
  destruct (status res =? 401); [|injection H as _ <-; auto].
  destruct (refreshSession _ w1) as [b w2] eqn:Hr.
  destruct (refreshSession_issued _ _ _ _ Hr)
    as [->|(enc & tok & _ & _ & He & Hc2 & Hh2 & Hn2)].
  - destruct b as [[|]|e].
    + pose proof (fetch_issued _ _ _ _ _ H) as Hc3.
      pose proof (fetch_frame _ _ _ _ _ H) as [Hh3 Hn3].
      exfalso. rewrite refreshSession_run in Hr.
      destruct (getCSRFToken w1) as [[csrf|e] w0]; [|discriminate].
      destruct (truthy csrf); [|discriminate].
      destruct (Encode _); [|discriminate].
      cbv zeta in Hr. injection Hr as _ Hr. apply (f_equal calls) in Hr.
      simpl in Hr. apply (f_equal length) in Hr. rewrite length_app in Hr.
      simpl in Hr. lia.
    + injection H as _ <-. auto.
    + injection H as _ <-. auto.
  - assert (Hc12 : calls w2 = calls w ++ [rq; refresh_request enc tok]).
    { rewrite Hc2, Hc1, <- app_assoc. reflexivity. }
    destruct b as [[|]|e].
    + pose proof (fetch_issued _ _ _ _ _ H) as Hc3.
      pose proof (fetch_frame _ _ _ _ _ H) as [Hh3 Hn3].
      split; [|split; congruence].
      right. exists enc, tok. split; [exact He|]. right.
      rewrite Hc3, Hc12, <- app_assoc. reflexivity.
    + injection H as _ <-. split; [|split; congruence].
      right. exists enc, tok. auto.
    + injection H as _ <-. split; [|split; congruence].
      right. exists enc, tok. auto.
Qed.

(** Whatever the server does, one call of [authFetch] puts on the network
    the caller's request alone, or that request and one refresh request, or
    those two and the caller's request once more: never two refresh
    requests, never a second retry, and nothing before the caller's
    request. *)
Theorem authFetch_call_shapes input init opts w :
  let w' := (authFetch input init opts w).2 in
  let rq := forced input init in
  issued w w' = [rq]
  \/ exists enc tok,
       Encode (default (lit "app") (opts ≫= audience)) = Some enc
       /\ (issued w w' = [rq; refresh_request enc tok]
           \/ issued w w' = [rq; refresh_request enc tok; rq]).
Proof.
  intros w' rq. subst w'.
  destruct (authFetch input init opts w) as [c w'] eqn:Ha.
  destruct (authFetch_issued _ _ _ _ _ _ Ha) as [[H|(enc & tok & He & H)] _].
  - left. apply issued_app, H.
  - right. exists enc, tok. split; [exact He|].
    destruct H as [H|H]; [left|right]; apply issued_app, H.
Qed.

Lemma authFetch_throw_sources_witness :
  fetch api_data (withCredentials (default ∅ None)) world_offline
  = (Throw (TypeError "Failed to fetch"),
     after_call world_offline (forced api_data None) (lit "authgate_csrf=abc"))
  \/ (exists res w1 w2,
        fetch api_data (withCredentials (default ∅ None)) world_offline
        = (Normal res, w1)
        /\ status res = 401
        /\ refreshSession (Some (default (lit "app") (None ≫= audience))) w1
           = (Normal true, w2)
        /\ fetch api_data (withCredentials (default ∅ None)) w2
           = (Throw (TypeError "Failed to fetch"),
              after_call world_offline (forced api_data None)
                (lit "authgate_csrf=abc")))
  \/ (exists res,
        fetch api_data (withCredentials (default ∅ None)) world_offline
        = (Normal res,
           after_call world_offline (forced api_data None)
             (lit "authgate_csrf=abc"))
        /\ status res = 401
        /\ getCSRFToken
             (after_call world_offline (forced api_data None)
                (lit "authgate_csrf=abc"))
           = (Throw (TypeError "Failed to fetch"),
              after_call world_offline (forced api_data None)
                (lit "authgate_csrf=abc"))
        /\ TypeError "Failed to fetch" = URIError).
Proof.
  apply (authFetch_throw_sources api_data None None world_offline).
  vm_compute. reflexivity.
Defined.

(** Only [logout] navigates: [refreshSession], [authFetch] and
    [getCurrentUser] leave [window.location.href] alone, whatever the
    cookies and the server are. *)
Theorem only_logout_navigates w :
  (forall a,
     navs (refreshSession a w).2 = navs w /\ href (refreshSession a w).2 = href w)
  /\ (forall input init opts,
        navs (authFetch input init opts w).2 = navs w
        /\ href (authFetch input init opts w).2 = href w)
  /\ (forall opts,
        navs (getCurrentUser opts w).2 = navs w
        /\ href (getCurrentUser opts w).2 = href w).
Proof.
  assert (Ha : forall input init opts,
             navs (authFetch input init opts w).2 = navs w
             /\ href (authFetch input init opts w).2 = href w).
  { intros input init opts.
    destruct (authFetch input init opts w) as [c w'] eqn:H.
    destruct (authFetch_issued _ _ _ _ _ _ H) as (_ & Hh & Hn). auto. }
  split; [|split; [exact Ha|]].
  - intros a. destruct (refreshSession a w) as [c w'] eqn:Hr.
    destruct (refreshSession_issued _ _ _ _ Hr)
      as [->|(enc & tok & _ & _ & _ & _ & Hh & Hn)]; auto.
  - intros opts. rewrite getCurrentUser_run. unfold user_lookup.
    specialize (Ha (InputString (lit "/auth/user"))
                  (Some {[ "method"%string := JStr (lit "GET") ]})
                  (Some (mkAuthOpts (Some (default (lit "app") (opts ≫= audience)))))).
    destruct (authFetch _ _ _ w) as [[res|e] w']; simpl in Ha; [|exact Ha].
    destruct (ok res); [destruct (json res)|]; exact Ha.
Qed.

Lemma getCurrentUser_issued opts w :
  issued w (getCurrentUser opts w).2 = issued w (user_lookup opts w).2.
Proof.
  rewrite getCurrentUser_run.
  destruct (user_lookup opts w) as [[res|e] w']; [|reflexivity].
  destruct (ok res); [destruct (json res)|]; reflexivity.
Qed.

(** Every request the SDK sends carries [credentials: "include"], the
    caller's requests that [authFetch] forwards included, whatever the
    caller put under [credentials]. *)
Theorem credentials_always_included w rq :
  (exists opts, rq ∈ issued w (logout opts w).2)
  \/ (exists a, rq ∈ issued w (refreshSession a w).2)
  \/ (exists input init opts, rq ∈ issued w (authFetch input init opts w).2)
  \/ (exists opts, rq ∈ issued w (getCurrentUser opts w).2) ->
  req_init rq !! "credentials"%string = Some (JStr (lit "include")).
Proof.
  assert (Hforced : forall input init,
            req_init (forced input init) !! "credentials"%string
            = Some (JStr (lit "include"))).
  { intros input init. apply withCredentials_forced. }
  assert (Hauth : forall input init opts,
            rq ∈ issued w (authFetch input init opts w).2 ->
            req_init rq !! "credentials"%string = Some (JStr (lit "include"))).
  { intros input init opts Hin.
    destruct (authFetch input init opts w) as [c w'] eqn:Ha.
    destruct (authFetch_issued _ _ _ _ _ _ Ha) as [[H|(enc & tok & _ & [H|H])] _];
      simpl in Hin; rewrite (issued_app _ _ _ H) in Hin;
      rewrite !elem_of_cons, elem_of_nil in Hin;
      destruct Hin as [->|Hin]; try apply Hforced;
      try (destruct Hin as [->|Hin]; [reflexivity|]);
      try (destruct Hin as [->|Hin]; [apply Hforced|]);
      contradiction. }
  intros [(opts & Hin)|[(a & Hin)|[(input & init & opts & Hin)|(opts & Hin)]]].
  - destruct (logout opts w) as [out w'] eqn:Hl.
    destruct (logout_issued _ _ _ _ Hl) as [->|(tok & _ & _ & H)]; simpl in Hin.
    + rewrite issued_refl in Hin. apply elem_of_nil in Hin. contradiction.
    + rewrite (issued_app _ _ _ H) in Hin. apply list_elem_of_singleton in Hin.
      subst rq. reflexivity.
  - destruct (refreshSession a w) as [c w'] eqn:Hr.
    destruct (refreshSession_issued _ _ _ _ Hr)
      as [->|(enc & tok & _ & _ & _ & H & _)]; simpl in Hin.
    + rewrite issued_refl in Hin. apply elem_of_nil in Hin. contradiction.
    + rewrite (issued_app _ _ _ H) in Hin. apply list_elem_of_singleton in Hin.
      subst rq. reflexivity.
  - apply (Hauth input init opts Hin).
  - rewrite getCurrentUser_issued in Hin. apply (Hauth _ _ _ Hin).
Qed.

Lemma credentials_always_included_witness :
  req_init (forced api_data (Some {[ "credentials"%string := JStr (lit "omit") ]}))
    !! "credentials"%string
  = Some (JStr (lit "include")).
Proof.
  apply (credentials_always_included world_retry).
  right; right; left.
  exists api_data, (Some {[ "credentials"%string := JStr (lit "omit") ]}), None.
  vm_compute. left.
Defined.

(** [getCurrentUser] through an expired access token: when the identity
    request is answered 401 and the refresh succeeds, the user is whatever
    the retried request's body parses to if that request succeeds, and
    [null] if it does not, a second 401 included; either way the calls are
    the identity request, the refresh and the identity request again. *)
Theorem getCurrentUser_after_refresh opts w r1 w1 w2 r3 w3 :
  let get_user := forced (InputString (lit "/auth/user"))
                    (Some {[ "method"%string := JStr (lit "GET") ]}) in
  fetch (req_input get_user) (req_init get_user) w = (Normal r1, w1) ->
  status r1 = 401 ->
  refreshSession (Some (default (lit "app") (opts ≫= audience))) w1
    = (Normal true, w2) ->
  fetch (req_input get_user) (req_init get_user) w2 = (Normal r3, w3) ->
  (getCurrentUser opts w).2 = w3
  /\ (forall v, ok r3 = true -> json r3 = Normal v ->
        (getCurrentUser opts w).1 = Normal v)
  /\ (ok r3 = false -> (getCurrentUser opts w).1 = Normal JNull)
  /\ (exists enc tok,
        issued w w3 = [get_user; refresh_request enc tok; get_user])
  /\ req_init get_user !! "method"%string = Some (JStr (lit "GET")).
Proof.
  intros get_user Hf Hs Hr Hf3.
  assert (Hu : user_lookup opts w = (Normal r3, w3)).
  { unfold user_lookup. rewrite authFetch_run.
    change (fetch (InputString (lit "/auth/user"))
              (withCredentials (default ∅ (Some {[ "method"%string := JStr (lit "GET") ]}))) w)
      with (fetch (req_input get_user) (req_init get_user) w).
    rewrite Hf, Hs, Z.eqb_refl. simpl audience. simpl default at 1.
    replace (default (lit "app") (Some (default (lit "app") (opts ≫= audience))))
      with (default (lit "app") (opts ≫= audience)) by reflexivity.
    rewrite Hr. exact Hf3. }
  rewrite getCurrentUser_run, Hu.
  split; [destruct (ok r3); [destruct (json r3)|]; reflexivity|].
  split; [intros v -> ->; reflexivity|].
  split; [intros ->; reflexivity|].
  split; [|reflexivity].
  destruct (refreshSession_issued _ _ _ _ Hr)
    as [->|(enc & tok & _ & _ & _ & Hc2 & _)].
  - exfalso. rewrite refreshSession_run in Hr.
    destruct (getCSRFToken w1) as [[csrf|e] w0]; [|discriminate].
    destruct (truthy csrf); [|discriminate].
    destruct (Encode _); [|discriminate].
    cbv zeta in Hr. injection Hr as _ Hr. apply (f_equal calls) in Hr.
    simpl in Hr. apply (f_equal length) in Hr. rewrite length_app in Hr.
    simpl in Hr. lia.
  - exists enc, tok. apply issued_app.
    rewrite (fetch_issued _ _ _ _ _ Hf3), Hc2, (fetch_issued _ _ _ _ _ Hf),
      <- !app_assoc. reflexivity.
Qed.

Lemma getCurrentUser_after_refresh_witness :
  (getCurrentUser None world_expired).1 = Normal sample_user
  /\ CurrentUser sample_user = true
  /\ (getCurrentUser None world_still_401).1 = Normal JNull
  /\ length (calls (getCurrentUser None world_still_401).2) = 3%nat.
Proof.
  pose (get_user := forced (InputString (lit "/auth/user"))
                      (Some {[ "method"%string := JStr (lit "GET") ]})).
  pose (w1 := (fetch (req_input get_user) (req_init get_user) world_expired).2).
  pose (w2 := (refreshSession (Some (lit "app")) w1).2).
  pose (w3 := (fetch (req_input get_user) (req_init get_user) w2).2).
  pose (v1 := (fetch (req_input get_user) (req_init get_user) world_still_401).2).
  pose (v2 := (refreshSession (Some (lit "app")) v1).2).
  pose (v3 := (fetch (req_input get_user) (req_init get_user) v2).2).
  split; [|split; [reflexivity|split]].
  - refine (proj1 (proj2 (getCurrentUser_after_refresh None world_expired
                            (resp 401) w1 w2
                            (mkResponse 200 (Normal sample_user)) w3 _ _ _ _))
              sample_user _ _); vm_compute; reflexivity.
  - refine (proj1 (proj2 (proj2 (getCurrentUser_after_refresh None world_still_401
                                    (resp 401) v1 v2 (resp 401) v3 _ _ _ _))) _);
      vm_compute; reflexivity.
  - vm_compute. reflexivity.
Defined.

(** A refresh call that the transport rejects, or that is answered with a
    status outside 200 to 299, is absorbed: [authFetch] returns the first
    401 after exactly two calls, unlike a rejection of the caller's own
    request, which it lets through. *)
Theorem authFetch_absorbs_refresh_failure input init opts w res w1 tok enc :
  fetch input (withCredentials (default ∅ init)) w = (Normal res, w1) ->
  status res = 401 ->
  getCSRFToken w1 = (Normal (Some tok), w1) -> tok <> [] ->
  Encode (default (lit "app") (opts ≫= audience)) = Some enc ->
  let rf := refresh_request enc tok in
  let r := net w1 (calls w1) (cookie w1) rf in
  (forall rr, r.1 = Normal rr -> ok rr = false) ->
  authFetch input init opts w = (Normal res, after_call w1 rf r.2)
  /\ issued w (after_call w1 rf r.2) = [forced input init; rf].
Proof.
  intros Hf Hs Hc Hne He rf r Hfail.
  split; [|apply (issued_after_two _ _ _ _ _ (fetch_issued _ _ _ _ _ Hf))].
  rewrite authFetch_run, Hf, Hs, Z.eqb_refl.
  rewrite refreshSession_run, Hc. simpl default at 1. rewrite He.
  destruct tok as [|c tok]; [contradiction|]. cbv zeta. simpl truthy. cbv iota.
  simpl default. fold rf. fold r.
  destruct (r.1) as [rr|e] eqn:Hr; [|reflexivity].
  rewrite (Hfail rr eq_refl). reflexivity.
Qed.

Lemma authFetch_absorbs_refresh_failure_witness :
  (authFetch api_data None None world_refresh_offline).1 = Normal (resp 401)
  /\ length (calls (authFetch api_data None None world_refresh_offline).2) = 2%nat.
Proof.
  pose (w1 := (fetch api_data (withCredentials (default ∅ None))
                 world_refresh_offline).2).
  assert (H := authFetch_absorbs_refresh_failure api_data None None
                 world_refresh_offline (resp 401) w1 (lit "abc") (lit "app")
                 ltac:(vm_compute; reflexivity) eq_refl
                 ltac:(vm_compute; reflexivity) ltac:(discriminate)
                 ltac:(vm_compute; reflexivity)
                 ltac:(vm_compute; discriminate)).
  destruct H as [H _]. rewrite H. split; [reflexivity|vm_compute; reflexivity].
Defined.

(** Unless the identity request is answered 401, [getCurrentUser] makes
    that one call and nothing else: a transport failure, a 403 or a 500
    gives [null] without a refresh attempt and without the CSRF cookie being
    read, so that even a malformed cookie does no harm there. *)
Theorem getCurrentUser_single_call opts w c w1 :
  let get_user := forced (InputString (lit "/auth/user"))
                    (Some {[ "method"%string := JStr (lit "GET") ]}) in
  fetch (req_input get_user) (req_init get_user) w = (c, w1) ->
  (forall r, c = Normal r -> status r <> 401) ->
  (getCurrentUser opts w).2 = w1
  /\ issued w w1 = [get_user]
  /\ (forall e, c = Throw e -> (getCurrentUser opts w).1 = Normal JNull)
  /\ (forall r, c = Normal r -> ok r = false ->
        (getCurrentUser opts w).1 = Normal JNull)
  /\ (forall r v, c = Normal r -> ok r = true -> json r = Normal v ->
        (getCurrentUser opts w).1 = Normal v).
Proof.
  intros get_user Hf Hs.
  assert (Hu : user_lookup opts w = (c, w1)).
  { unfold user_lookup. rewrite authFetch_run.
    change (fetch (InputString (lit "/auth/user"))
              (withCredentials (default ∅ (Some {[ "method"%string := JStr (lit "GET") ]}))) w)
      with (fetch (req_input get_user) (req_init get_user) w).
    rewrite Hf. destruct c as [r|e]; [|reflexivity].
    destruct (Z.eqb_spec (status r) 401) as [H401|_]; [|reflexivity].
    destruct (Hs r eq_refl H401). }
  rewrite getCurrentUser_run, Hu.
  split; [destruct c as [r|e]; [destruct (ok r); [destruct (json r)|]|];
          reflexivity|].
  split; [apply issued_app, (fetch_issued _ _ _ _ _ Hf)|].
  split; [intros e ->; reflexivity|].
  split; [intros r -> ->; reflexivity|].
  intros r v -> -> ->. reflexivity.
Qed.

Lemma getCurrentUser_single_call_witness :
  (getCurrentUser None world_server_error).1 = Normal JNull
  /\ length (calls (getCurrentUser None world_server_error).2) = 1%nat.
Proof.
  pose (get_user := forced (InputString (lit "/auth/user"))
                      (Some {[ "method"%string := JStr (lit "GET") ]})).
  pose (w1 := (fetch (req_input get_user) (req_init get_user) world_server_error).2).
  assert (H := getCurrentUser_single_call None world_server_error
                 (Normal (resp 500)) w1
                 ltac:(vm_compute; reflexivity)
                 ltac:(intros r [= <-]; discriminate)).
  destruct H as (Hw & _ & _ & Hnull & _).
  split; [apply (Hnull (resp 500) eq_refl eq_refl)|].
  rewrite Hw. vm_compute. reflexivity.
Defined.
